(** * sqlsqrt: the interactive SQL client of [src/main.cpp]

    A shallow embedding of [fetchAndPrintResults], [describeTable] and [main],
    and the properties of the statement life cycle, of paging, of cell
    rendering, of line continuation and of the history that the specification
    states about them.

    The program talks to four collaborators that are not part of the source
    file: the Oracle driver ([oracle_helpers.h], [dpi.h]), the line editor
    ([linenoise.h]), the table renderer ([tabulate]) and the text formatter
    ([fmt]).  Calls to them are recorded, in program order, as a list of
    [Event]s; what they answer is an input of the model. *)

From Stdlib Require Import ZArith List String Ascii Bool Lia DecimalString.
Import ListNotations.
Open Scope string_scope.
Open Scope Z_scope.

(** ** Characters and strings *)

Definition LF : string := String (ascii_of_nat 10) EmptyString.
Definition DQUOTE : string := String (ascii_of_nat 34) EmptyString.
Definition BACKSLASH : ascii := ascii_of_nat 92.

(** [std::string_view::back()]: the last character.  The C++ standard leaves
    the call undefined on an empty view; [None] stands for that case. *)
Fixpoint back (line : string) : option ascii :=
  match line with
  | EmptyString => None
  | String c EmptyString => Some c
  | String _ rest => back rest
  end.

(** [line.substr(0, line.size() - 1)] on a view that is not empty. *)
Fixpoint drop_last (line : string) : string :=
  match line with
  | EmptyString => EmptyString
  | String _ EmptyString => EmptyString
  | String c rest => String c (drop_last rest)
  end.

(** [s.substr(pos)]: the characters from position [pos] on. *)
Fixpoint substr_from (pos : nat) (s : string) : string :=
  match pos, s with
  | O, _ => s
  | S p, String _ rest => substr_from p rest
  | S _, EmptyString => EmptyString
  end.

(** [fmt::format("{}", n)] at an integer type: decimal digits, with a
    leading minus sign for a negative number and no sign otherwise. *)
Definition fmt_int (n : Z) : string := NilZero.string_of_int (Z.to_int n).

(** [fmt::format("{}", x)] at [double] and [float] is the formatting
    library's own algorithm and works on floating point values; both the
    carrier types and the two renderings are parameters of the model. *)
Class FmtLib : Type := {
  double : Type;
  float : Type;
  fmt_double : double -> string;
  fmt_float : float -> string
}.

(** ** The driver's data (dpi.h, oracle_helpers.h) *)

(** Modelled from the spec: the exception class of [oracle_helpers.h], of
    which the program reads the context string and the message. *)
Record OracleException : Type := {
  context : string;
  what : string
}.

(** Modelled from the spec: the native type tags of [dpi.h], of which the
    specification lists the seven that [fetchAndPrintResults] names and one
    tag for every other type. *)
Inductive dpiNativeTypeNum : Type :=
| DPI_NATIVE_TYPE_BOOLEAN
| DPI_NATIVE_TYPE_BYTES
| DPI_NATIVE_TYPE_DOUBLE
| DPI_NATIVE_TYPE_INT64
| DPI_NATIVE_TYPE_UINT64
| DPI_NATIVE_TYPE_FLOAT
| DPI_NATIVE_TYPE_TIMESTAMP
| DPI_NATIVE_TYPE_OTHER.

(** Modelled from the spec: the timestamp structure of [dpi.h], with the
    components the program prints and the minute offset it does not. *)
Record dpiTimestamp : Type := {
  year : Z;
  month : Z;
  day : Z;
  hour : Z;
  minute : Z;
  second : Z;
  fsecond : Z;
  tzHourOffset : Z;
  tzMinuteOffset : Z
}.

(** The result of a call that may raise an [OracleException]. *)
Inductive Result (A : Type) : Type :=
| Ok (a : A)
| Throw (e : OracleException).
Arguments Ok {A} a.
Arguments Throw {A} e.

(** ** The renderer's table and the calls to the outside *)

Inductive FontStyle : Type := bold | italic.

(** Modelled from the spec: the table of the external renderer
    ([tabulate/table.hpp]) as the program builds it: the rows added, and the
    style requests, each with the row index (and cell index) it was made at.
    What the renderer does with a request for a row it does not have is its
    own. *)
Record Table : Type := {
  rows : list (list string);
  rowStyles : list (Z * FontStyle);
  cellStyles : list (Z * Z * FontStyle)
}.

Definition emptyTable : Table :=
  {| rows := []; rowStyles := []; cellStyles := [] |}.

Definition add_row (cells : list string) (t : Table) : Table :=
  {| rows := rows t ++ [cells]; rowStyles := rowStyles t;
     cellStyles := cellStyles t |}.

Definition row_font_style (idx : Z) (f : FontStyle) (t : Table) : Table :=
  {| rows := rows t; rowStyles := rowStyles t ++ [(idx, f)];
     cellStyles := cellStyles t |}.

Definition cell_font_style (idx col : Z) (f : FontStyle) (t : Table) : Table :=
  {| rows := rows t; rowStyles := rowStyles t;
     cellStyles := cellStyles t ++ [(idx, col, f)] |}.

Record OracleConnectionOptions : Type := {
  connString : string;
  username : string;
  password : string
}.

(** The calls to the collaborators, by the name of the function called:
    the line editor ([linenoise.h]), the two output streams, and the driver
    ([oracle_helpers.h]). *)
Inductive Event : Type :=
| Linenoise (prompt : string)
| LinenoiseSetMultiLine (ml : Z)
| LinenoiseMaskModeEnable
| LinenoiseMaskModeDisable
| LinenoiseHistoryLoad (path : string)
| LinenoiseHistorySetMaxLen (len : Z)
| LinenoiseHistoryAdd (line : string)
| LinenoiseHistorySave (path : string)
| Cout (text : string)
| CoutTable (t : Table)
| Cerr (text : string)
| ContextMake
| ConnectionMake (opts : OracleConnectionOptions)
| NewArrayVariable (value : string)
| PrepareStatement (text : string)
| Execute (text : string)
| Fetch (found : option bool).

(** The calls that reach the database: what it answers can depend on them
    and on nothing else the program does. *)
Definition isDriverCall (e : Event) : bool :=
  match e with
  | ContextMake | ConnectionMake _ | NewArrayVariable _
  | PrepareStatement _ | Execute _ | Fetch _ => true
  | _ => false
  end.

Definition driverCalls (evs : list Event) : list Event :=
  filter isDriverCall evs.

(** The lines [linenoiseHistoryAdd] was given, in order: the lines the
    program records in the history. *)
Fixpoint historyAdded (evs : list Event) : list string :=
  match evs with
  | [] => []
  | LinenoiseHistoryAdd line :: evs' => line :: historyAdded evs'
  | _ :: evs' => historyAdded evs'
  end.

(** The answers of the calls of [fetch], in order; [None] for a call that
    raised. *)
Fixpoint fetchAnswers (evs : list Event) : list (option bool) :=
  match evs with
  | [] => []
  | Fetch found :: evs' => found :: fetchAnswers evs'
  | _ :: evs' => fetchAnswers evs'
  end.

(** The tables printed, in order, each as its rows of cell texts. *)
Fixpoint tablesPrinted (evs : list Event) : list (list (list string)) :=
  match evs with
  | [] => []
  | CoutTable t :: evs' => rows t :: tablesPrinted evs'
  | _ :: evs' => tablesPrinted evs'
  end.

(** The texts written to the standard output, in order, tables apart. *)
Fixpoint coutTexts (evs : list Event) : list string :=
  match evs with
  | [] => []
  | Cout text :: evs' => text :: coutTexts evs'
  | _ :: evs' => coutTexts evs'
  end.

(** The prompts shown, in order. *)
Fixpoint promptsShown (evs : list Event) : list string :=
  match evs with
  | [] => []
  | Linenoise prompt :: evs' => prompt :: promptsShown evs'
  | _ :: evs' => promptsShown evs'
  end.

(** How one turn of the loop ends: [continue] (or the end of the body),
    [break], an [OracleException] that leaves the loop, or a call whose
    behaviour the C++ standard does not define. *)
Inductive Flow : Type :=
| Continue
| Break
| Raise (e : OracleException)
| Undefined.

(** What lines 217 to 229 make of the line read. *)
Inductive Accumulated : Type :=
| MoreInput
| FullLine (fullLine : string)
| BackOfEmpty.

(** ** The command line *)

(** Modelled from the spec: an argument of [cli_args.h], of which the
    program asks whether it was given ([operator bool]) and what its value
    is ([as<T>()]). *)
Record CliArgument (T : Type) : Type := {
  given : bool;
  as_ : T
}.
Arguments given {T} c.
Arguments as_ {T} c.

(** What [argParser.parse] found on the command line. *)
Record CommandLine : Type := {
  program_name : string;
  helpFlag : bool;
  connStringArg : CliArgument string;
  usernameArg : CliArgument string;
  passwordarg : CliArgument string;
  historyFileArg : CliArgument string;
  historyMaxSizeArg : CliArgument Z
}.

Definition usageText (name : string) : string :=
  "Synopsis: " ++ name ++ "[OPTIONS]" ++ LF ++
  "Options:" ++ LF ++
  "  -h, --help               Display command-line synopsis followed by the list of" ++ LF ++
  "                           available options." ++ LF ++
  "  -c, --connectionString   Connection string to connect to oracle with" ++ LF ++
  "  -u, --username           Username to authenticate to Oracle with" ++ LF ++
  "  -p, --password           Password to authenticate to Oracle with" ++ LF ++
  LF.

Definition print_usage (name : string) : list Event := [Cout (usageText name)].

(** The conversion of an [int64_t] to the [int] parameter of
    [linenoiseHistorySetMaxLen]. *)
Definition to_int (n : Z) : Z := (n + 2147483648) mod 4294967296 - 2147483648.

(** How the process ends. *)
Inductive Exit : Type :=
| Return (code : Z)
| UndefinedBehaviour.

Section Model.
Context {fmtlib : FmtLib}.

(** Modelled from the spec: the value buffer of a cell ([dpi.h]), one member
    per native type, with the floating point members of the types of the
    formatting library.  The buffer is there whether or not the cell is
    null. *)
Inductive dpiDataBuffer : Type :=
| asBoolean (b : bool)
| asBytes (s : string)
| asDouble (d : double)
| asInt64 (n : Z)
| asUint64 (n : Z)
| asFloat (f : float)
| asTimestamp (ts : dpiTimestamp)
| asOther.

(** Modelled from the spec: what [getColumnValue] returns
    ([oracle_helpers.h]): the null marker and the buffer. *)
Record OracleColumnValue : Type := {
  isNull : bool;
  value : dpiDataBuffer
}.

(** [colValue.nativeType()]: the native type is the member of the buffer
    that is in use. *)
Definition nativeType (colValue : OracleColumnValue) : dpiNativeTypeNum :=
  match value colValue with
  | asBoolean _ => DPI_NATIVE_TYPE_BOOLEAN
  | asBytes _ => DPI_NATIVE_TYPE_BYTES
  | asDouble _ => DPI_NATIVE_TYPE_DOUBLE
  | asInt64 _ => DPI_NATIVE_TYPE_INT64
  | asUint64 _ => DPI_NATIVE_TYPE_UINT64
  | asFloat _ => DPI_NATIVE_TYPE_FLOAT
  | asTimestamp _ => DPI_NATIVE_TYPE_TIMESTAMP
  | asOther => DPI_NATIVE_TYPE_OTHER
  end.

(** ** Rendering of one cell (main.cpp, lines 79 to 118) *)

(** The [switch] of lines 84 to 118, from [colValueStr] before it to
    [colValueStr] after it.  The case taken is the one of the native type,
    that is of the member of the buffer in use, which [as<T>()] reads.  Every
    case assigns to [colValueStr], the [default] included, so that the string
    before the [switch] is never the one after it. *)
Definition switchNativeType (colValueStr : string)
    (colValue : OracleColumnValue) : string :=
  match value colValue with
  | asBoolean b => if b then "TRUE" else "FALSE"
  | asBytes s => DQUOTE ++ s ++ DQUOTE
  | asDouble d => fmt_double d
  | asInt64 n => fmt_int n
  | asUint64 n => fmt_int n
  | asFloat f => fmt_float f
  | asTimestamp ts =>
      fmt_int (year ts) ++ "-" ++ fmt_int (month ts) ++ "-" ++
      fmt_int (day ts) ++ " " ++ fmt_int (hour ts) ++ ":" ++
      fmt_int (minute ts) ++ ":" ++ fmt_int (second ts) ++ "." ++
      fmt_int (fsecond ts) ++ " Z" ++ fmt_int (tzHourOffset ts)
  | asOther => "unsupported type"
  end.

(** Lines 79 to 118, the text of one cell: [colValueStr] starts empty, the
    null test of line 80 assigns [<null>] to it, and the [switch] follows,
    for a null cell as for any other. *)
Definition formatColumnValue (colValue : OracleColumnValue) : string :=
  let colValueStr := EmptyString in
  let colValueStr := if isNull colValue then "<null>" else colValueStr in
  switchNativeType colValueStr colValue.

(** ** Statements *)

(** Modelled from the spec: the statement class of [oracle_helpers.h].
    [fetch] is the row-advance primitive, which tells whether it produced a
    row; the columns are read by position, from 1, and their number is fixed
    once the statement is executed.

    What one call of [stmt.fetch()] will do: make the next row current, or
    raise.  When nothing is left the call returns [false]. *)
Inductive FetchStep : Type :=
| FetchRow (row : list OracleColumnValue)
| FetchThrow (e : OracleException).

(** An [OracleStatement]: the text and the bound variables the program gave
    it, and the driver's side of it: the column names, the row the last
    successful [fetch] made current, and the answers to the fetches to come. *)
Record OracleStatement : Type := {
  sql : string;
  binds : list (nat * string);
  columns : list string;
  currentRow : list OracleColumnValue;
  pending : list FetchStep
}.

Definition numColumns (stmt : OracleStatement) : nat :=
  List.length (columns stmt).

Definition withFetch (stmt : OracleStatement)
    (row : list OracleColumnValue) (rest : list FetchStep) : OracleStatement :=
  {| sql := sql stmt; binds := binds stmt; columns := columns stmt;
     currentRow := row; pending := rest |}.

Definition bindByPos (pos : nat) (var : string) (stmt : OracleStatement)
    : OracleStatement :=
  {| sql := sql stmt; binds := binds stmt ++ [(pos, var)];
     columns := columns stmt; currentRow := currentRow stmt;
     pending := pending stmt |}.

(** Modelled from the spec: [stmt.fetch()] of [oracle_helpers.h], the
    row-advance primitive. *)
Definition fetch (stmt : OracleStatement) : Result bool * OracleStatement :=
  match pending stmt with
  | [] => (Ok false, stmt)
  | FetchRow row :: rest => (Ok true, withFetch stmt row rest)
  | FetchThrow e :: rest => (Throw e, withFetch stmt (currentRow stmt) rest)
  end.

(** The exception for a position at which the current row has no value. *)
Definition noColumnValue : OracleException :=
  {| context := "getColumnValue"; what := "no value at this position" |}.

(** Modelled from the spec: [stmt.getColumnValue(col)] of
    [oracle_helpers.h], positions counted from 1; the driver raises for a
    position at which the current row has no value. *)
Definition getColumnValue (stmt : OracleStatement) (col : nat)
    : Result OracleColumnValue :=
  match nth_error (currentRow stmt) (col - 1) with
  | Some colValue => Ok colValue
  | None => Throw noColumnValue
  end.

(** ** fetchAndPrintResults (main.cpp, lines 55 to 135) *)

(** [std::set<int>::insert]: the set is kept as its increasing listing. *)
Fixpoint set_insert (x : Z) (s : list Z) : list Z :=
  match s with
  | [] => [x]
  | y :: s' =>
      if x <? y then x :: s
      else if x =? y then s
      else y :: set_insert x s'
  end.

(** [v[i] = std::max(v[i], n)] on a vector that has a position [i]. *)
Fixpoint vector_max_at (i : nat) (n : nat) (v : list nat) : list nat :=
  match i, v with
  | O, w :: v' => Nat.max w n :: v'
  | S i', w :: v' => w :: vector_max_at i' n v'
  | _, [] => []
  end.

(** What the column loop of one row has built. *)
Record RowCells : Type := {
  rowValues : list string;
  nulColumns : list Z;
  columnWidths : list nat
}.

(** Lines 77 to 121: [for (auto col = 1; col <= stmt.numColumns(); ++col)],
    as a recursion on the positions still to visit.  The null test of line 80
    adds the column to [nulColumns] here and sets the string in
    [formatColumnValue]. *)
Fixpoint columnLoop (stmt : OracleStatement) (cols : list nat)
    (acc : RowCells) : Result RowCells :=
  match cols with
  | [] => Ok acc
  | col :: cols' =>
      match getColumnValue stmt col with
      | Throw e => Throw e
      | Ok colValue =>
          let nul :=
            if isNull colValue
            then set_insert (Z.of_nat col - 1) (nulColumns acc)
            else nulColumns acc in
          let colValueStr := formatColumnValue colValue in
          columnLoop stmt cols'
            {| rowValues := rowValues acc ++ [colValueStr];
               nulColumns := nul;
               columnWidths :=
                 vector_max_at (col - 1) (String.length colValueStr)
                   (columnWidths acc) |}
      end
  end.

(** The cell texts of a row, as the column loop appends them. *)
Definition formatRow (row : list OracleColumnValue) : list string :=
  map formatColumnValue row.

(** Lines 123 to 125: one italic request per null column, at row
    [resCounter + 1] of the table. *)
Fixpoint styleNulColumns (resCounter : Z) (nul : list Z) (table : Table)
    : Table :=
  match nul with
  | [] => table
  | col :: nul' =>
      styleNulColumns resCounter nul'
        (cell_font_style (resCounter + 1) col italic table)
  end.

(** How the [while] loop of lines 74 to 132 ends. *)
Record LoopEnd : Type := {
  end_table : Table;
  end_resCounter : Z;
  end_wasExhaused : bool
}.

(** Lines 74 to 132.  Every turn that does not leave the loop takes one
    answer from the statement's pending fetches, which the recursion follows;
    [row] is the current row and [pending] what is left after it.  The [match]
    on [pending] is the call [stmt.fetch()] of line 127 (lemma
    [rowLoop_fetch] below). *)
Fixpoint rowLoop (maxResults : Z) (stmt : OracleStatement)
    (pending : list FetchStep) (row : list OracleColumnValue)
    (resCounter : Z) (table : Table) (widths : list nat)
    : Result LoopEnd * OracleStatement * list Event :=
  let cur := withFetch stmt row pending in
  if resCounter <? maxResults then
    match columnLoop cur (seq 1 (numColumns cur))
            {| rowValues := []; nulColumns := []; columnWidths := widths |} with
    | Throw e => (Throw e, cur, [])
    | Ok cells =>
        let table := add_row (rowValues cells) table in
        let table := styleNulColumns resCounter (nulColumns cells) table in
        match pending with
        | [] =>
            (Ok {| end_table := table; end_resCounter := resCounter;
                   end_wasExhaused := true |},
             cur, [Fetch (Some false)])
        | FetchRow next :: rest =>
            let '(r, stmt', evs) :=
              rowLoop maxResults stmt rest next (resCounter + 1) table
                (columnWidths cells) in
            (r, stmt', Fetch (Some true) :: evs)
        | FetchThrow e :: rest =>
            (Throw e, withFetch stmt row rest, [Fetch None])
        end
    end
  else
    (Ok {| end_table := table; end_resCounter := resCounter;
           end_wasExhaused := false |},
     cur, []).

(** Lines 62 to 70: the header row, in bold, and the starting widths. *)
Definition headerTable (stmt : OracleStatement) : Table :=
  row_font_style 0 bold (add_row (columns stmt) emptyTable).

Definition headerWidths (stmt : OracleStatement) : list nat :=
  map String.length (columns stmt).

Definition fetchedText (resCounter : Z) : string :=
  LF ++ "Fetched " ++ fmt_int resCounter ++ " rows" ++ LF.

(** The function: what it returns or raises, the statement afterwards, and
    the calls it made. *)
Definition fetchAndPrintResults (stmt : OracleStatement) (maxResults : Z)
    : Result bool * OracleStatement * list Event :=
  match fetch stmt with
  | (Throw e, stmt') => (Throw e, stmt', [Fetch None])
  | (Ok false, stmt') =>
      (Ok false, stmt', [Fetch (Some false); Cout ("No rows returned" ++ LF)])
  | (Ok true, stmt') =>
      match rowLoop maxResults stmt' (pending stmt') (currentRow stmt') 1
              (headerTable stmt') (headerWidths stmt') with
      | (Throw e, stmt'', evs) => (Throw e, stmt'', Fetch (Some true) :: evs)
      | (Ok fin, stmt'', evs) =>
          (Ok (end_wasExhaused fin), stmt'',
           Fetch (Some true) :: evs ++
           [CoutTable (end_table fin); Cout (fetchedText (end_resCounter fin))])
      end
  end.

(** ** The connection *)

(** Modelled from the spec: the connection class of [oracle_helpers.h].
    What the database answers to a call may depend on everything the session
    asked of it before, so each answer takes the driver calls made so far.
    [execute] gives the statement as it is after a successful execution; a
    statement whose execution raised is left as it was. *)
Record OracleConnection : Type := {
  prepareStatement : list Event -> string -> Result OracleStatement;
  execute : list Event -> OracleStatement -> Result OracleStatement
}.

Definition INT_MAX : Z := 2147483647.

(** The text of [describeStmtStr]. *)
Definition describeStmtStr : string :=
  "select column_name as " ++ DQUOTE ++ "Name" ++ DQUOTE ++ ", " ++
  "nullable as " ++ DQUOTE ++ "Null?" ++ DQUOTE ++ ", " ++
  "concat(concat(concat(data_type,'('),data_length),')') as " ++
  DQUOTE ++ "Type" ++ DQUOTE ++ " " ++
  "from all_tab_columns where table_name = :1".

(** [describeTable] (lines 137 to 157): the calls made so far come in, and
    go out extended.  The statement is a local of the function. *)
Definition describeTable (conn : OracleConnection) (tableName : string)
    (calls : list Event) : Result unit * list Event :=
  let calls := (calls ++ [NewArrayVariable tableName])%list in
  let prepared := prepareStatement conn (driverCalls calls) describeStmtStr in
  let calls := (calls ++ [PrepareStatement describeStmtStr])%list in
  match prepared with
  | Throw e => (Throw e, calls)
  | Ok describeStatement =>
      let describeStatement := bindByPos 1 tableName describeStatement in
      let executed := execute conn (driverCalls calls) describeStatement in
      let calls := (calls ++ [Execute describeStmtStr])%list in
      match executed with
      | Throw e => (Throw e, calls)
      | Ok describeStatement =>
          match fetchAndPrintResults describeStatement INT_MAX with
          | (Throw e, _, evs) => (Throw e, (calls ++ evs)%list)
          | (Ok _, _, evs) => (Ok tt, (calls ++ evs)%list)
          end
      end
  end.

Definition kDescribeKeyword : string := ".describe ".

(** ** The loop of [main] (lines 206 to 263) *)

(** The locals that live across the turns of the loop, and the calls made to
    the outside so far. *)
Record Session : Type := {
  activeStatement : option OracleStatement;
  lineBuilder : string;
  inMultLine : bool;
  calls : list Event
}.

Definition call (evs : list Event) (s : Session) : Session :=
  {| activeStatement := activeStatement s; lineBuilder := lineBuilder s;
     inMultLine := inMultLine s; calls := (calls s ++ evs)%list |}.

Definition setCalls (evs : list Event) (s : Session) : Session :=
  {| activeStatement := activeStatement s; lineBuilder := lineBuilder s;
     inMultLine := inMultLine s; calls := evs |}.

Definition setActiveStatement (a : option OracleStatement) (s : Session)
    : Session :=
  {| activeStatement := a; lineBuilder := lineBuilder s;
     inMultLine := inMultLine s; calls := calls s |}.

Definition setLine (builder : string) (multi : bool) (s : Session) : Session :=
  {| activeStatement := activeStatement s; lineBuilder := builder;
     inMultLine := multi; calls := calls s |}.

(** Lines 217 to 229: the line read joins [lineBuilder]; with a trailing
    backslash the turn ends there, otherwise the full line is taken out. *)
Definition accumulate (line : string) (s : Session) : Accumulated * Session :=
  match back line with
  | None => (BackOfEmpty, s)
  | Some c =>
      if Ascii.eqb c BACKSLASH then
        (MoreInput,
         call [LinenoiseSetMultiLine 1]
           (setLine (lineBuilder s ++ drop_last line) true s))
      else
        let fullLine := lineBuilder s ++ line in
        (FullLine fullLine,
         setLine EmptyString false (call [LinenoiseSetMultiLine 0] s))
  end.

Definition errorText (e : OracleException) : string :=
  "Error " ++ context e ++ ": " ++ what e ++ LF.

(** Lines 254 to 262: the [try] block and its handler. *)
Definition submitStatement (conn : OracleConnection) (fullLine : string)
    (s : Session) : Session :=
  let prepared := prepareStatement conn (driverCalls (calls s)) fullLine in
  let s := call [PrepareStatement fullLine] s in
  match prepared with
  | Throw e => call [Cerr (errorText e)] s
  | Ok stmt =>
      let s := setActiveStatement (Some stmt) s in
      let executed := execute conn (driverCalls (calls s)) stmt in
      let s := call [Execute fullLine] s in
      match executed with
      | Throw e => call [Cerr (errorText e)] s
      | Ok stmt =>
          let s := setActiveStatement (Some stmt) s in
          let s := call [LinenoiseHistoryAdd fullLine] s in
          match fetchAndPrintResults stmt 20 with
          | (Throw e, stmt, evs) =>
              call [Cerr (errorText e)]
                (call evs (setActiveStatement (Some stmt) s))
          | (Ok _, stmt, evs) =>
              call evs (setActiveStatement (Some stmt) s)
          end
      end
  end.

(** Lines 231 to 262: what the loop does with the full line. *)
Definition dispatch (conn : OracleConnection) (fullLine : string)
    (s : Session) : Flow * Session :=
  if String.eqb fullLine EmptyString then (Continue, s)
  else if String.eqb fullLine ".exit" then (Break, s)
  else if String.eqb fullLine ".it" then
    match activeStatement s with
    | None => (Continue, call [Cout ("No active statement" ++ LF)] s)
    | Some stmt =>
        match fetchAndPrintResults stmt 20 with
        | (Throw e, stmt, evs) =>
            (Raise e, call evs (setActiveStatement (Some stmt) s))
        | (Ok r, stmt, evs) =>
            let s := call evs (setActiveStatement (Some stmt) s) in
            if negb r then (Continue, setActiveStatement None s)
            else (Continue, s)
        end
    end
  else if String.prefix kDescribeKeyword fullLine then
    let table_name := substr_from (String.length kDescribeKeyword) fullLine in
    match describeTable conn table_name (calls s) with
    | (Throw e, calls') => (Raise e, setCalls calls' s)
    | (Ok _, calls') =>
        (Continue, call [LinenoiseHistoryAdd fullLine] (setCalls calls' s))
    end
  else (Continue, submitStatement conn fullLine s).

(** One turn of the loop once [linenoise] has returned a line. *)
Definition turn (conn : OracleConnection) (line : string) (s : Session)
    : Flow * Session :=
  match accumulate line s with
  | (BackOfEmpty, s) => (Undefined, s)
  | (MoreInput, s) => (Continue, s)
  | (FullLine fullLine, s) => dispatch conn fullLine s
  end.

Definition promptText (multi : bool) : string :=
  if multi then "SQL++ (cont.) > " else "SQL++ > ".

(** The [for(;;)] loop on the lines the user types; once they are used up
    [linenoise] returns a null pointer and the loop is left. *)
Fixpoint loop (conn : OracleConnection) (input : list string) (s : Session)
    : Flow * Session :=
  let s := call [Linenoise (promptText (inMultLine s))] s in
  match input with
  | [] => (Break, s)
  | line :: input' =>
      match turn conn line s with
      | (Continue, s) => loop conn input' s
      | stop => stop
      end
  end.

(** ** [main] *)

(** Modelled from the spec: the database side of the start,
    [OracleContext::make] and [OracleConnection::make] of
    [oracle_helpers.h], either of which may raise. *)
Record Oracle : Type := {
  contextMake : Result unit;
  connectionMake : OracleConnectionOptions -> Result OracleConnection
}.

Definition fatalText (e : OracleException) : string :=
  "Fatal error " ++ context e ++ ": " ++ what e ++ LF.

(** Lines 176 to 183. *)
Definition loadHistory (args : CommandLine) (home : option string)
    : string * list Event :=
  if given (historyFileArg args) then
    let historyPath := as_ (historyFileArg args) in
    (historyPath, [LinenoiseHistoryLoad historyPath])
  else
    match home with
    | Some homeVar =>
        let historyPath := homeVar ++ "/.sqlplusplus_history" in
        (historyPath, [LinenoiseHistoryLoad historyPath])
    | None => (EmptyString, [])
    end.

(** Lines 189 to 196: the password, and the input left.  A null pointer
    from [linenoise] goes to the constructor of [std::string], which the
    standard leaves undefined. *)
Definition readPassword (args : CommandLine) (input : list string)
    : option string * list string * list Event :=
  if given (passwordarg args) then (Some (as_ (passwordarg args)), input, [])
  else
    match input with
    | [] =>
        (None, [], [LinenoiseMaskModeEnable; Linenoise "Password > "])
    | line :: input' =>
        (Some line, input',
         [LinenoiseMaskModeEnable; Linenoise "Password > ";
          LinenoiseMaskModeDisable])
    end.

(** Lines 198 to 203. *)
Definition setHistoryMaxLen (args : CommandLine) : list Event :=
  if given (historyMaxSizeArg args)
  then [LinenoiseHistorySetMaxLen (to_int (as_ (historyMaxSizeArg args)))]
  else [LinenoiseHistorySetMaxLen 10000].

(** Lines 265 to 267. *)
Definition saveHistory (historyPath : string) : list Event :=
  if String.eqb historyPath EmptyString then []
  else [LinenoiseHistorySave historyPath].

(** [main] with its function [try] block: the command line, [HOME], the
    database and the lines typed come in; the exit and the calls made come
    out. *)
Definition main (args : CommandLine) (home : option string) (db : Oracle)
    (input : list string) : Exit * list Event :=
  let log := if helpFlag args then print_usage (program_name args) else [] in
  let '(historyPath, evs) := loadHistory args home in
  let log := (log ++ evs ++ [ContextMake])%list in
  match contextMake db with
  | Throw e => (Return 1, (log ++ [Cerr (fatalText e)])%list)
  | Ok _ =>
      match readPassword args input with
      | (None, _, evs) => (UndefinedBehaviour, (log ++ evs)%list)
      | (Some pw, input, evs) =>
          let connOpts :=
            {| connString := as_ (connStringArg args);
               username := as_ (usernameArg args);
               password := pw |} in
          let log :=
            (log ++ evs ++ setHistoryMaxLen args ++
             [ConnectionMake connOpts])%list in
          match connectionMake db connOpts with
          | Throw e => (Return 1, (log ++ [Cerr (fatalText e)])%list)
          | Ok oracleConn =>
              let s :=
                {| activeStatement := None; lineBuilder := EmptyString;
                   inMultLine := false; calls := log |} in
              match loop oracleConn input s with
              | (Raise e, s) =>
                  (Return 1, (calls s ++ [Cerr (fatalText e)])%list)
              | (Undefined, s) => (UndefinedBehaviour, calls s)
              | (_, s) =>
                  (Return 0, (calls s ++ saveHistory historyPath)%list)
              end
          end
      end
  end.

(** ** Vocabulary of the properties *)

(** Whether the database prepares and executes the text, asked after the
    calls [made]. *)
Definition preparesAndExecutes (conn : OracleConnection) (made : list Event)
    (fullLine : string) : bool :=
  match prepareStatement conn (driverCalls made) fullLine with
  | Throw _ => false
  | Ok stmt =>
      match execute conn
              (driverCalls (made ++ [PrepareStatement fullLine])) stmt with
      | Throw _ => false
      | Ok _ => true
      end
  end.

(** The session with one more call at the start of its record of calls. *)
Definition preceded (e : Event) (s : Session) : Session :=
  setCalls (e :: calls s) s.

(** The command line without [-h]. *)
Definition withoutHelp (args : CommandLine) : CommandLine :=
  {| program_name := program_name args; helpFlag := false;
     connStringArg := connStringArg args; usernameArg := usernameArg args;
     passwordarg := passwordarg args; historyFileArg := historyFileArg args;
     historyMaxSizeArg := historyMaxSizeArg args |}.

(** The fragments of a continued line: each line with its trailing
    backslash taken off, joined in order. *)
Fixpoint joined (continued : list string) : string :=
  match continued with
  | [] => EmptyString
  | line :: continued' => drop_last line ++ joined continued'
  end.

End Model.

(** ** Sample data *)

(** A formatting library for data without floating point cells. *)
Definition noFloats : FmtLib :=
  {| double := Empty_set; float := Empty_set;
     fmt_double := fun d => match d with end;
     fmt_float := fun f => match f with end |}.

Section Samples.
#[local] Existing Instance noFloats.

Definition intCell (n : Z) : OracleColumnValue :=
  {| isNull := false; value := asInt64 n |}.

(** The one-column rows [first], [first + 1], ... *)
Definition numbers (first : Z) (count : nat) : list (list OracleColumnValue) :=
  map (fun i => [intCell (first + Z.of_nat i)]) (seq 0 count).

(** An executed statement with the given columns and answers to come. *)
Definition executedStatement (text : string) (cols : list string)
    (steps : list FetchStep) : OracleStatement :=
  {| sql := text; binds := []; columns := cols; currentRow := [];
     pending := steps |}.

Definition ORA_00942 : OracleException :=
  {| context := "dpiStmt_execute"; what := "ORA-00942" |}.

Definition ORA_03113 : OracleException :=
  {| context := "dpiStmt_fetch"; what := "ORA-03113" |}.

(** A database with one table [t] of [count] rows [1 .. count], read by
    [select n from t]; [select n from broken] gives 20 rows and then fails
    to fetch; every other statement fails to execute, the catalog query of
    [describeTable] included. *)
Definition sampleConnection (count : nat) : OracleConnection :=
  {| prepareStatement := fun _ text => Ok (executedStatement text [] []);
     execute := fun _ stmt =>
       if String.eqb (sql stmt) "select n from t"
       then Ok (executedStatement (sql stmt) ["N"]
                  (map FetchRow (numbers 1 count)))
       else if String.eqb (sql stmt) "select n from broken"
       then Ok (executedStatement (sql stmt) ["N"]
                  (map FetchRow (numbers 1 20) ++ [FetchThrow ORA_03113]))
       else Throw ORA_00942 |}.

Definition sampleOracle (count : nat) : Oracle :=
  {| contextMake := Ok tt;
     connectionMake := fun _ => Ok (sampleConnection count) |}.

Definition absent {T : Type} (t : T) : CliArgument T :=
  {| given := false; as_ := t |}.

Definition present {T : Type} (t : T) : CliArgument T :=
  {| given := true; as_ := t |}.

(** [sqlsqrt -c db -u scott -p tiger], with or without [-h]. *)
Definition sampleCommandLine (help : bool) : CommandLine :=
  {| program_name := "sqlsqrt"; helpFlag := help;
     connStringArg := present "db"; usernameArg := present "scott";
     passwordarg := present "tiger"; historyFileArg := absent EmptyString;
     historyMaxSizeArg := absent 0 |}.

(** The session at the first prompt. *)
Definition freshSession : Session :=
  {| activeStatement := None; lineBuilder := EmptyString;
     inMultLine := false; calls := [] |}.

End Samples.

(** ** Further readings of the record of calls *)

(** The number of calls of [fetch] that found a row. *)
Fixpoint rowsFetched (evs : list Event) : Z :=
  match evs with
  | [] => 0
  | Fetch (Some true) :: evs' => 1 + rowsFetched evs'
  | _ :: evs' => rowsFetched evs'
  end.

(** The tables printed, in order, with their style requests. *)
Fixpoint printedTables (evs : list Event) : list Table :=
  match evs with
  | [] => []
  | CoutTable t :: evs' => t :: printedTables evs'
  | _ :: evs' => printedTables evs'
  end.

(** The paths [linenoiseHistorySave] was given, in order. *)
Fixpoint historySaved (evs : list Event) : list string :=
  match evs with
  | [] => []
  | LinenoiseHistorySave path :: evs' => path :: historySaved evs'
  | _ :: evs' => historySaved evs'
  end.

(** The switches of the masked mode of the line editor, in order. *)
Fixpoint maskCalls (evs : list Event) : list Event :=
  match evs with
  | [] => []
  | LinenoiseMaskModeEnable :: evs' => LinenoiseMaskModeEnable :: maskCalls evs'
  | LinenoiseMaskModeDisable :: evs' =>
      LinenoiseMaskModeDisable :: maskCalls evs'
  | _ :: evs' => maskCalls evs'
  end.

(** The texts given to [prepareStatement], in order. *)
Fixpoint preparedTexts (evs : list Event) : list string :=
  match evs with
  | [] => []
  | PrepareStatement text :: evs' => text :: preparedTexts evs'
  | _ :: evs' => preparedTexts evs'
  end.

(** The calls the loop of [main] and the functions it calls can make. *)
Definition loopCall (e : Event) : bool :=
  match e with
  | Linenoise _ | LinenoiseSetMultiLine _ | LinenoiseHistoryAdd _
  | Cout _ | CoutTable _ | Cerr _
  | NewArrayVariable _ | PrepareStatement _ | Execute _ | Fetch _ => true
  | _ => false
  end.

(** Fragments joined in order. *)
Definition concatenated (fragments : list string) : string :=
  fold_right String.append EmptyString fragments.

(** A fragment typed with the continuation marker after it. *)
Definition continuedLine (fragment : string) : string :=
  fragment ++ String BACKSLASH EmptyString.

Section FurtherVocabulary.
Context {fmtlib : FmtLib}.

(** The positions, counted from [from], of the null cells of a row. *)
Fixpoint nullPositions (from : Z) (row : list OracleColumnValue) : list Z :=
  match row with
  | [] => []
  | colValue :: row' =>
      if isNull colValue then from :: nullPositions (from + 1) row'
      else nullPositions (from + 1) row'
  end.

(** The italic requests of a page: the rows shown, the first of them while
    [resCounter] has the value given, each with the row index its requests
    name. *)
Fixpoint italicRequests (resCounter : Z) (shown : list (list OracleColumnValue))
    : list (Z * Z * FontStyle) :=
  match shown with
  | [] => []
  | row :: shown' =>
      (map (fun col => (resCounter + 1, col, italic)) (nullPositions 0 row) ++
       italicRequests (resCounter + 1) shown')%list
  end.

End FurtherVocabulary.

Section FurtherSamples.
#[local] Existing Instance noFloats.

Definition nullCell : OracleColumnValue :=
  {| isNull := true; value := asBytes EmptyString |}.

Definition textCell (text : string) : OracleColumnValue :=
  {| isNull := false; value := asBytes text |}.

(** The catalog rows of a table with the columns [N] and [NOTE]. *)
Definition catalogRows : list (list OracleColumnValue) :=
  [ [textCell "N"; textCell "N"; textCell "NUMBER(22)"];
    [textCell "NOTE"; textCell "Y"; textCell "VARCHAR2(80)"] ].

(** A database that answers the catalog query of [describeTable] with
    [catalogRows] and [select note from t] with a row whose cell is null, and
    fails to prepare anything else. *)
Definition catalogConnection : OracleConnection :=
  {| prepareStatement := fun _ text =>
       if String.eqb text describeStmtStr || String.eqb text "select note from t"
       then Ok (executedStatement text [] [])
       else Throw ORA_00942;
     execute := fun _ stmt =>
       if String.eqb (sql stmt) describeStmtStr
       then Ok {| sql := sql stmt; binds := binds stmt;
                  columns := ["Name"; "Null?"; "Type"]; currentRow := [];
                  pending := map FetchRow catalogRows |}
       else Ok {| sql := sql stmt; binds := binds stmt;
                  columns := ["NOTE"]; currentRow := [];
                  pending := [FetchRow [nullCell]] |} |}.

End FurtherSamples.

(** * Properties *)

Section Properties.
Context {fmtlib : FmtLib}.

(** Case analysis on the column loop and on the row loop of the goal. *)
Ltac case_columnLoop :=
  match goal with
  | |- context [columnLoop ?c ?l ?a] =>
      destruct (columnLoop c l a) as [ cells | e' ]
  end.

Ltac case_rowLoop E :=
  match goal with
  | |- context [rowLoop ?a ?b ?c ?d ?e ?f ?g] =>
      destruct (rowLoop a b c d e f g) as [[r' s'] evs'] eqn:E
  end.

(** Case analysis on what the database answers to prepare and execute and
    on the first page. *)
Ltac case_statement conn :=
  match goal with
  | |- context [prepareStatement conn ?m ?t] =>
      destruct (prepareStatement conn m t) as [ stmt | x ];
      [ match goal with
        | |- context [execute conn ?m' ?st] =>
            destruct (execute conn m' st) as [ stmt' | x ];
            [ match goal with
              | |- context [fetchAndPrintResults stmt' ?n] =>
                  destruct (fetchAndPrintResults stmt' n)
                    as [[[ flag | x ] st'] evs] eqn:Hpage
              end | ]
        end | ]
  end.

(** ** Rendering of one cell *)

(** The text of a cell is the one the [switch] assigns: the null marker has
    no part in it. *)
Lemma switchNativeType_assigns (before after : string)
    (colValue : OracleColumnValue) :
  switchNativeType before colValue = switchNativeType after colValue.
Proof. reflexivity. Qed.

Lemma formatColumnValue_switch (colValue : OracleColumnValue) :
  formatColumnValue colValue = switchNativeType EmptyString colValue.
Proof. reflexivity. Qed.

Lemma formatColumnValue_isNull (b1 b2 : bool) (v : dpiDataBuffer) :
  formatColumnValue {| isNull := b1; value := v |} =
  formatColumnValue {| isNull := b2; value := v |}.
Proof. reflexivity. Qed.

(** A decimal rendering starts with a digit or a minus sign. *)
Lemma fmt_int_not_null (n : Z) : fmt_int n <> "<null>".
Proof.
  unfold fmt_int.
  destruct (Z.to_int n) as [d | d]; cbn; [ | discriminate ].
  destruct d; cbn; discriminate.
Qed.

Lemma fmt_int_head (n : Z) :
  exists c s, fmt_int n = String c s /\ c <> "<"%char.
Proof.
  unfold fmt_int.
  destruct (Z.to_int n) as [d | d]; cbn.
  - destruct d; cbn; do 2 eexists; (split; [ reflexivity | discriminate ]).
  - do 2 eexists; (split; [ reflexivity | discriminate ]).
Qed.

(** Apart from the floating point types, whose rendering is the formatting
    library's, no native type is ever rendered as [<null>], null or not. *)
Lemma formatColumnValue_never_null_text (colValue : OracleColumnValue) :
  nativeType colValue <> DPI_NATIVE_TYPE_DOUBLE ->
  nativeType colValue <> DPI_NATIVE_TYPE_FLOAT ->
  formatColumnValue colValue <> "<null>".
Proof.
  destruct colValue as [nul v].
  rewrite formatColumnValue_switch.
  unfold nativeType, switchNativeType; cbn [value].
  destruct v as [b | s | d | n | n | f | ts | ]; intros Hd Hf.
  - destruct b; discriminate.
  - discriminate.
  - congruence.
  - apply fmt_int_not_null.
  - apply fmt_int_not_null.
  - congruence.
  - destruct (fmt_int_head (year ts)) as (c & s & -> & Hc).
    cbn. intros [= E]. congruence.
  - discriminate.
Qed.

(** ** The loop over the rows *)

Lemma fetchAnswers_app (evs1 evs2 : list Event) :
  fetchAnswers (evs1 ++ evs2) = (fetchAnswers evs1 ++ fetchAnswers evs2)%list.
Proof.
  induction evs1 as [ | e evs1 IH ]; [ reflexivity | ].
  destruct e; cbn; rewrite ?IH; reflexivity.
Qed.

Lemma historyAdded_app (evs1 evs2 : list Event) :
  historyAdded (evs1 ++ evs2) = (historyAdded evs1 ++ historyAdded evs2)%list.
Proof.
  induction evs1 as [ | e evs1 IH ]; [ reflexivity | ].
  destruct e; cbn; rewrite ?IH; reflexivity.
Qed.

Lemma tablesPrinted_app (evs1 evs2 : list Event) :
  tablesPrinted (evs1 ++ evs2) =
  (tablesPrinted evs1 ++ tablesPrinted evs2)%list.
Proof.
  induction evs1 as [ | e evs1 IH ]; [ reflexivity | ].
  destruct e; cbn; rewrite ?IH; reflexivity.
Qed.

(** The statement argument of [rowLoop] only gives the text, the variables
    and the columns. *)
Lemma withFetch_withFetch stmt row0 pending0 row pending :
  withFetch (withFetch stmt row0 pending0) row pending =
  withFetch stmt row pending.
Proof. reflexivity. Qed.

Lemma rowLoop_withFetch (pending : list FetchStep) :
  forall maxResults stmt row0 pending0 row resCounter table widths,
    rowLoop maxResults (withFetch stmt row0 pending0) pending row resCounter
      table widths =
    rowLoop maxResults stmt pending row resCounter table widths.
Proof.
  induction pending as [ | step pending IH ]; intros; cbn [rowLoop];
    rewrite ?withFetch_withFetch.
  - reflexivity.
  - destruct (resCounter <? maxResults); [ | reflexivity ].
    case_columnLoop; [ | reflexivity ].
    destruct step as [ next | e ]; [ | reflexivity ].
    rewrite IH. reflexivity.
Qed.

(** Line 127 is a call of [fetch] on the statement: the loop written with
    [fetch] is the loop of the model. *)
Lemma rowLoop_fetch maxResults stmt steps row resCounter table widths :
  rowLoop maxResults stmt steps row resCounter table widths =
  let cur := withFetch stmt row steps in
  if resCounter <? maxResults then
    match columnLoop cur (seq 1 (numColumns cur))
            {| rowValues := []; nulColumns := []; columnWidths := widths |} with
    | Throw e => (Throw e, cur, [])
    | Ok cells =>
        let table := add_row (rowValues cells) table in
        let table := styleNulColumns resCounter (nulColumns cells) table in
        match fetch cur with
        | (Throw e, stmt') => (Throw e, stmt', [Fetch None])
        | (Ok false, stmt') =>
            (Ok {| end_table := table; end_resCounter := resCounter;
                   end_wasExhaused := true |},
             stmt', [Fetch (Some false)])
        | (Ok true, stmt') =>
            let '(r, stmt'', evs) :=
              rowLoop maxResults stmt' (pending stmt') (currentRow stmt')
                (resCounter + 1) table (columnWidths cells) in
            (r, stmt'', Fetch (Some true) :: evs)
        end
    end
  else
    (Ok {| end_table := table; end_resCounter := resCounter;
           end_wasExhaused := false |},
     cur, []).
Proof.
  destruct steps as [ | [ next | e ] rest ]; cbn;
    destruct (resCounter <? maxResults); try reflexivity;
    case_columnLoop; try reflexivity.
  rewrite !rowLoop_withFetch. reflexivity.
Qed.

(** The loop calls nothing but [fetch]. *)
Lemma rowLoop_calls (pending : list FetchStep) :
  forall maxResults stmt row resCounter table widths r stmt' evs,
    rowLoop maxResults stmt pending row resCounter table widths =
      (r, stmt', evs) ->
    map Fetch (fetchAnswers evs) = evs.
Proof.
  induction pending as [ | step pending IH ]; cbn; intros until evs;
    destruct (resCounter <? maxResults);
    try (intros [= <- <- <-]; reflexivity);
    case_columnLoop;
    try (intros [= <- <- <-]; reflexivity).
  destruct step as [ next | e ]; [ | intros [= <- <- <-]; reflexivity ].
  case_rowLoop E.
  intros [= <- <- <-]. cbn. f_equal. eapply IH, E.
Qed.


(** ** What one call of [fetchAndPrintResults] reports *)


(** ** The rows of a page *)

Lemma styleNulColumns_rows (nul : list Z) :
  forall resCounter table,
    rows (styleNulColumns resCounter nul table) = rows table.
Proof.
  induction nul as [ | col nul IH ]; intros; cbn; [ | rewrite IH ];
    reflexivity.
Qed.

(** On a row with a value at every position visited, the column loop
    appends the texts of the values. *)
Lemma columnLoop_rowValues (vals : list OracleColumnValue) :
  forall stmt before acc,
    currentRow stmt = (before ++ vals)%list ->
    exists cells,
      columnLoop stmt (seq (S (List.length before)) (List.length vals)) acc =
        Ok cells /\
      rowValues cells = (rowValues acc ++ formatRow vals)%list.
Proof.
  induction vals as [ | v vals IH ]; intros stmt before acc Hrow.
  - exists acc. cbn. rewrite app_nil_r. auto.
  - cbn [List.length seq columnLoop]. unfold getColumnValue.
    replace (S (List.length before) - 1)%nat with (List.length before) by lia.
    rewrite Hrow, nth_error_app2, Nat.sub_diag by lia. cbn [nth_error].
    specialize (IH stmt (before ++ [v])%list).
    rewrite length_app, Nat.add_1_r in IH.
    match goal with |- context [columnLoop stmt _ ?a] =>
      destruct (IH a) as (cells & Hloop & Hvals) end.
    { rewrite Hrow, <- app_assoc. reflexivity. }
    exists cells. split; [ exact Hloop | ].
    rewrite Hvals. cbn [rowValues formatRow map]. rewrite <- app_assoc.
    reflexivity.
Qed.

Definition wellFormed (stmt : OracleStatement)
    (row : list OracleColumnValue) : Prop :=
  List.length row = numColumns stmt.

(** The loop on a result set that raises nowhere: with [k] turns allowed, it
    shows the current row and the rows after it up to [k] rows in all, takes
    [k] of the rows after the current one from the statement, and ends
    exhausted if fewer than [k] rows were left after the current one. *)
Lemma rowLoop_rows (rs : list (list OracleColumnValue)) :
  forall maxResults stmt row resCounter table widths,
    wellFormed stmt row ->
    Forall (wellFormed stmt) rs ->
    let k := Z.to_nat (maxResults - resCounter) in
    exists fin stmt' evs,
      rowLoop maxResults stmt (map FetchRow rs) row resCounter table widths =
        (Ok fin, stmt', evs) /\
      rows (end_table fin) =
        (rows table ++ map formatRow (firstn k (row :: rs)))%list /\
      pending stmt' = map FetchRow (skipn k rs) /\
      end_wasExhaused fin = (List.length rs <? k)%nat /\
      end_resCounter fin =
        resCounter + Z.of_nat (Nat.min k (List.length rs)).
Proof.
  induction rs as [ | next rs IH ];
    intros maxResults stmt row resCounter table widths Hrow Hrs k;
    cbn [map rowLoop];
    destruct (Z.ltb_spec resCounter maxResults) as [ Hlt | Hge ].
  - destruct (columnLoop_rowValues row (withFetch stmt row []) []
                {| rowValues := []; nulColumns := []; columnWidths := widths |}
                eq_refl) as (cells & Hloop & Hvals).
    cbn [List.length] in Hloop. unfold numColumns at 1.
    cbn [columns withFetch]. fold (numColumns stmt). rewrite <- Hrow, Hloop.
    do 3 eexists. split; [ reflexivity | ]. cbn [end_table pending withFetch
      end_wasExhaused end_resCounter].
    rewrite styleNulColumns_rows. cbn [rows add_row]. rewrite Hvals.
    destruct k as [ | k' ] eqn:Hk; [ lia | ].
    cbn. rewrite firstn_nil, Z.add_0_r. auto.
  - do 3 eexists. split; [ reflexivity | ].
    replace k with O by lia. cbn. rewrite app_nil_r, Z.add_0_r. auto.
  - destruct (columnLoop_rowValues row
                (withFetch stmt row (FetchRow next :: map FetchRow rs)) []
                {| rowValues := []; nulColumns := []; columnWidths := widths |}
                eq_refl) as (cells & Hloop & Hvals).
    cbn [List.length] in Hloop. unfold numColumns at 1.
    cbn [columns withFetch]. fold (numColumns stmt). rewrite <- Hrow, Hloop.
    inversion Hrs as [ | ? ? Hnext Hrs' ]; subst.
    match goal with |- context [rowLoop ?a ?b ?c ?d ?e ?f ?g] =>
      destruct (IH a b d e f g Hnext Hrs')
        as (fin & stmt' & evs & -> & Hrows & Hpend & Hex & Hcount) end.
    do 3 eexists. split; [ reflexivity | ].
    rewrite Hrows, Hpend, Hex, Hcount, styleNulColumns_rows.
    cbn [rows add_row]. rewrite Hvals.
    replace k with (S (Z.to_nat (maxResults - (resCounter + 1)))) by lia.
    cbn [firstn skipn map List.length Nat.min app]. rewrite <- app_assoc.
    repeat split. lia.
  - do 3 eexists. split; [ reflexivity | ].
    replace k with O by lia. cbn. rewrite app_nil_r, Z.add_0_r. auto.
Qed.

(** A page of a result set that raises nowhere, with [r] the first row left
    and [rs] the rows after it: the table shows the first
    [maxResults - 1] rows left, the statement loses one row more than that
    (or all of them), and the flag tells whether fewer than [maxResults] rows
    were left. *)
Lemma fetchAndPrintResults_page stmt r rs maxResults :
  pending stmt = map FetchRow (r :: rs) ->
  Forall (wellFormed stmt) (r :: rs) ->
  let k := Z.to_nat (maxResults - 1) in
  exists stmt' evs,
    fetchAndPrintResults stmt maxResults =
      (Ok (List.length rs <? k)%nat, stmt', evs) /\
    tablesPrinted evs = [columns stmt :: map formatRow (firstn k (r :: rs))] /\
    pending stmt' = map FetchRow (skipn k rs).
Proof.
  intros Hpend Hwf k. inversion Hwf as [ | ? ? Hr Hrs ]; subst.
  unfold fetchAndPrintResults, fetch. rewrite Hpend. cbn [map].
  cbn [pending currentRow withFetch].
  destruct (rowLoop_rows rs maxResults
              (withFetch stmt r (map FetchRow rs)) r 1
              (headerTable (withFetch stmt r (map FetchRow rs)))
              (headerWidths (withFetch stmt r (map FetchRow rs))) Hr Hrs)
    as (fin & stmt' & evs & Hloop & Hrows & Hleft & Hex & _).
  rewrite Hloop. exists stmt'. eexists. split; [ | split ].
  - rewrite Hex. reflexivity.
  - cbn [tablesPrinted]. rewrite tablesPrinted_app.
    rewrite <- (rowLoop_calls _ _ _ _ _ _ _ _ _ _ Hloop).
    assert (Hnone : forall l, tablesPrinted (map Fetch l) = [])
      by (induction l; auto).
    rewrite Hnone. cbn. rewrite Hrows. reflexivity.
  - exact Hleft.
Qed.

Lemma fetchAndPrintResults_no_rows stmt maxResults :
  pending stmt = [] ->
  fetchAndPrintResults stmt maxResults =
    (Ok false, stmt, [Fetch (Some false); Cout ("No rows returned" ++ LF)]).
Proof. unfold fetchAndPrintResults, fetch. intros ->. reflexivity. Qed.

(** The function adds nothing to the history. *)
Lemma fetchAndPrintResults_history stmt maxResults :
  historyAdded (snd (fetchAndPrintResults stmt maxResults)) = [].
Proof.
  assert (Hnone : forall l, historyAdded (map Fetch l) = [])
    by (induction l; auto).
  unfold fetchAndPrintResults.
  destruct (fetch stmt) as [[ [ | ] | e ] stmt']; try reflexivity.
  case_rowLoop E.
  apply rowLoop_calls in E.
  destruct r'; cbn; rewrite ?historyAdded_app, <- E, Hnone; reflexivity.
Qed.

(** ** The history *)

Lemma page_history stmt maxResults r stmt' evs :
  fetchAndPrintResults stmt maxResults = (r, stmt', evs) ->
  historyAdded evs = [].
Proof.
  intros H. pose proof (fetchAndPrintResults_history stmt maxResults) as Hh.
  rewrite H in Hh. exact Hh.
Qed.

Lemma describeTable_history conn tableName made :
  historyAdded (snd (describeTable conn tableName made)) = historyAdded made.
Proof.
  unfold describeTable.
  case_statement conn; cbn; rewrite !historyAdded_app;
    rewrite ?(page_history _ _ _ _ _ Hpage); cbn; rewrite !app_nil_r;
    reflexivity.
Qed.

(** A submitted statement is added to the history exactly if the database
    prepares it and executes it, whatever the fetch of its first page does. *)
Lemma submitStatement_history conn fullLine s :
  historyAdded (calls (submitStatement conn fullLine s)) =
  (historyAdded (calls s) ++
   (if preparesAndExecutes conn (calls s) fullLine then [fullLine] else []))%list.
Proof.
  unfold submitStatement, preparesAndExecutes.
  cbn [calls call setActiveStatement].
  case_statement conn; cbn; rewrite !historyAdded_app;
    rewrite ?(page_history _ _ _ _ _ Hpage); cbn; rewrite ?app_nil_r;
    reflexivity.
Qed.

(** C8, as amended.  A full line submitted as SQL is added to the history
    exactly if the database prepares it and executes it; a [.describe] line
    is added, and the loop goes on, whenever [describeTable] returns on its
    table name, and is not added when [describeTable] raises, in which case
    the exception leaves the loop; [.exit], [.it] and the empty line are
    never added. *)
Theorem history_recorded conn fullLine s flow s' :
  dispatch conn fullLine s = (flow, s') ->
  (fullLine = EmptyString \/ fullLine = ".exit" \/ fullLine = ".it" ->
   historyAdded (calls s') = historyAdded (calls s)) /\
  (String.prefix kDescribeKeyword fullLine = true ->
   match fst (describeTable conn
                (substr_from (String.length kDescribeKeyword) fullLine)
                (calls s)) with
   | Ok _ =>
       flow = Continue /\
       historyAdded (calls s') = (historyAdded (calls s) ++ [fullLine])%list
   | Throw e =>
       flow = Raise e /\
       historyAdded (calls s') = historyAdded (calls s)
   end) /\
  (fullLine <> EmptyString -> fullLine <> ".exit" -> fullLine <> ".it" ->
   String.prefix kDescribeKeyword fullLine = false ->
   flow = Continue /\
   historyAdded (calls s') =
     (historyAdded (calls s) ++
      (if preparesAndExecutes conn (calls s) fullLine
       then [fullLine] else []))%list).
Proof.
  unfold dispatch.
  destruct (String.eqb_spec fullLine EmptyString) as [ -> | Hblank ].
  { intros [= <- <-]. repeat split; try tauto; try discriminate. }
  destruct (String.eqb_spec fullLine ".exit") as [ -> | Hexit ].
  { intros [= <- <-]. repeat split; try tauto; try discriminate. }
  destruct (String.eqb_spec fullLine ".it") as [ -> | Hit ].
  { intros H. split; [ intros _ | split; [ discriminate | tauto ] ].
    destruct (activeStatement s) as [ stmt | ].
    - pose proof (fetchAndPrintResults_history stmt 20) as Hh.
      destruct (fetchAndPrintResults stmt 20) as [[[ flag | e ] st] evs];
        cbn in Hh; [ destruct flag | ]; cbn in H; injection H as <- <-; cbn;
        rewrite historyAdded_app, Hh, app_nil_r; reflexivity.
    - injection H as <- <-. cbn. rewrite historyAdded_app, app_nil_r.
      reflexivity. }
  destruct (String.prefix kDescribeKeyword fullLine) eqn:Hdescribe.
  { intros H. split; [ intuition congruence | split; [ intros _ | discriminate ] ].
    match type of H with context [describeTable ?c ?t ?m] =>
      pose proof (describeTable_history c t m) as Hh;
      destruct (describeTable c t m) as [[ [] | e ] made] end;
      cbn in Hh; injection H as <- <-; cbn.
    - rewrite historyAdded_app, Hh. auto.
    - auto. }
  intros [= <- <-]. split; [ intuition congruence | split; [ discriminate | ] ].
  intros _ _ _ _. split; [ reflexivity | apply submitStatement_history ].
Qed.

(** ** [.it] without a statement *)


(** ** The help flag *)

(** A call that does not reach the database, put at the start of the record
    of calls, changes nothing of what follows. *)
Section Preceded.
Variable e : Event.
Hypothesis e_outside : isDriverCall e = false.

Lemma driverCalls_preceded (made : list Event) :
  driverCalls (e :: made) = driverCalls made.
Proof. unfold driverCalls. cbn. rewrite e_outside. reflexivity. Qed.

Lemma describeTable_preceded conn tableName made :
  describeTable conn tableName (e :: made) =
  (fst (describeTable conn tableName made),
   e :: snd (describeTable conn tableName made)).
Proof.
  unfold describeTable. rewrite <- !app_comm_cons, !driverCalls_preceded.
  case_statement conn; reflexivity.
Qed.

Lemma submitStatement_preceded conn fullLine s :
  submitStatement conn fullLine (preceded e s) =
  preceded e (submitStatement conn fullLine s).
Proof.
  unfold submitStatement, preceded.
  cbn [calls call setCalls setActiveStatement activeStatement lineBuilder
       inMultLine].
  rewrite <- !app_comm_cons, !driverCalls_preceded.
  case_statement conn; reflexivity.
Qed.

Lemma dispatch_preceded conn fullLine s :
  dispatch conn fullLine (preceded e s) =
  (fst (dispatch conn fullLine s), preceded e (snd (dispatch conn fullLine s))).
Proof.
  unfold dispatch.
  destruct (String.eqb fullLine EmptyString); [ reflexivity | ].
  destruct (String.eqb fullLine ".exit"); [ reflexivity | ].
  destruct (String.eqb fullLine ".it").
  { cbn [activeStatement preceded setCalls].
    destruct (activeStatement s) as [ stmt | ]; [ | reflexivity ].
    destruct (fetchAndPrintResults stmt 20) as [[[ [ | ] | x ] st] evs];
      reflexivity. }
  destruct (String.prefix kDescribeKeyword fullLine).
  { cbn [calls preceded setCalls]. rewrite describeTable_preceded.
    destruct (describeTable conn _ (calls s)) as [[ [] | x ] made];
      reflexivity. }
  rewrite submitStatement_preceded. reflexivity.
Qed.

Lemma turn_preceded conn line s :
  turn conn line (preceded e s) =
  (fst (turn conn line s), preceded e (snd (turn conn line s))).
Proof.
  unfold turn, accumulate.
  destruct (back line) as [ c | ]; [ | reflexivity ].
  destruct (Ascii.eqb c BACKSLASH); [ reflexivity | ].
  apply (dispatch_preceded conn (lineBuilder s ++ line)
           (setLine EmptyString false (call [LinenoiseSetMultiLine 0] s))).
Qed.

Lemma loop_preceded conn (input : list string) :
  forall s,
    loop conn input (preceded e s) =
    (fst (loop conn input s), preceded e (snd (loop conn input s))).
Proof.
  induction input as [ | line input IH ]; intros s; cbn [loop].
  - reflexivity.
  - change (call [Linenoise (promptText (inMultLine (preceded e s)))]
              (preceded e s))
      with (preceded e (call [Linenoise (promptText (inMultLine s))] s)).
    rewrite turn_preceded.
    destruct (turn conn line _) as [[ | | x | ] s1]; cbn [fst snd];
      try reflexivity.
    apply IH.
Qed.

End Preceded.

(** The record of calls only grows, and every turn of the loop starts with
    a prompt. *)
Lemma describeTable_calls conn tableName made :
  exists evs, snd (describeTable conn tableName made) = (made ++ evs)%list.
Proof.
  unfold describeTable.
  case_statement conn; cbn; rewrite <- !app_assoc; eauto.
Qed.

Lemma submitStatement_calls conn fullLine s :
  exists evs, calls (submitStatement conn fullLine s) = (calls s ++ evs)%list.
Proof.
  unfold submitStatement.
  case_statement conn; cbn; rewrite <- !app_assoc; eauto.
Qed.

Lemma dispatch_calls conn fullLine s :
  exists evs, calls (snd (dispatch conn fullLine s)) = (calls s ++ evs)%list.
Proof.
  unfold dispatch.
  destruct (String.eqb fullLine EmptyString);
    [ exists []; cbn; rewrite app_nil_r; reflexivity | ].
  destruct (String.eqb fullLine ".exit");
    [ exists []; cbn; rewrite app_nil_r; reflexivity | ].
  destruct (String.eqb fullLine ".it").
  { destruct (activeStatement s) as [ stmt | ]; [ | cbn; eauto ].
    destruct (fetchAndPrintResults stmt 20) as [[[ [ | ] | x ] st] evs];
      cbn; eauto. }
  destruct (String.prefix kDescribeKeyword fullLine).
  { match goal with |- context [describeTable ?c ?t ?m] =>
      destruct (describeTable_calls c t m) as [evs Hevs];
      destruct (describeTable c t m) as [[ [] | x ] made] end;
      cbn in Hevs |- *; subst made; rewrite <- ?app_assoc; eauto. }
  apply submitStatement_calls.
Qed.

Lemma turn_calls conn line s :
  exists evs, calls (snd (turn conn line s)) = (calls s ++ evs)%list.
Proof.
  unfold turn, accumulate.
  destruct (back line) as [ c | ];
    [ | exists []; cbn; rewrite app_nil_r; reflexivity ].
  destruct (Ascii.eqb c BACKSLASH); [ cbn; eauto | ].
  match goal with |- context [dispatch ?c ?l ?s0] =>
    destruct (dispatch_calls c l s0) as [evs ->] end.
  cbn. rewrite <- app_assoc. eauto.
Qed.

Lemma loop_calls conn (input : list string) :
  forall s,
    exists rest,
      calls (snd (loop conn input s)) =
      (calls s ++ Linenoise (promptText (inMultLine s)) :: rest)%list.
Proof.
  induction input as [ | line input IH ]; intros s; cbn [loop].
  - exists []. reflexivity.
  - destruct (turn_calls conn line
                (call [Linenoise (promptText (inMultLine s))] s))
      as [evs Hevs].
    destruct (turn conn line _) as [[ | | x | ] s1]; cbn [snd] in Hevs |- *;
      try (rewrite Hevs; cbn; rewrite <- app_assoc; cbn; eauto).
    destruct (IH s1) as [rest ->]. rewrite Hevs. cbn.
    rewrite <- !app_assoc. cbn. eauto.
Qed.

(** C10.  With [-h] the program prints the usage text and then does all
    that it does without the flag: the exit is the same and the calls are the
    usage text followed by the calls of the run without the flag.  After the
    usage text the history is loaded (from [--historyFile], else from [HOME])
    and the context is made.  When the database accepts the connection, the
    password is taken from [-p] or read in masked mode from the first line
    typed, the size of the history is set, the connection is made with that
    password, and the first prompt of the loop follows; without [-p] the
    password is asked for. *)
Theorem help_goes_on args home db input :
  helpFlag args = true ->
  let usage := Cout (usageText (program_name args)) in
  let history :=
    if given (historyFileArg args)
    then [LinenoiseHistoryLoad (as_ (historyFileArg args))]
    else match home with
         | Some homeVar =>
             [LinenoiseHistoryLoad (homeVar ++ "/.sqlplusplus_history")]
         | None => []
         end in
  let maxLen :=
    LinenoiseHistorySetMaxLen
      (if given (historyMaxSizeArg args)
       then to_int (as_ (historyMaxSizeArg args)) else 10000) in
  let opts pw :=
    {| connString := as_ (connStringArg args);
       username := as_ (usernameArg args); password := pw |} in
  main args home db input =
    (fst (main (withoutHelp args) home db input),
     usage :: snd (main (withoutHelp args) home db input)) /\
  (exists rest,
     snd (main args home db input) =
       (usage :: history ++ ContextMake :: rest)%list) /\
  (forall conn,
     contextMake db = Ok tt ->
     given (passwordarg args) = true ->
     connectionMake db (opts (as_ (passwordarg args))) = Ok conn ->
     exists rest,
       snd (main args home db input) =
         (usage :: history ++
          [ContextMake; maxLen;
           ConnectionMake (opts (as_ (passwordarg args)));
           Linenoise "SQL++ > "] ++ rest)%list) /\
  (forall pw input' conn,
     contextMake db = Ok tt ->
     given (passwordarg args) = false ->
     input = pw :: input' ->
     connectionMake db (opts pw) = Ok conn ->
     exists rest,
       snd (main args home db input) =
         (usage :: history ++
          [ContextMake; LinenoiseMaskModeEnable; Linenoise "Password > ";
           LinenoiseMaskModeDisable; maxLen; ConnectionMake (opts pw);
           Linenoise "SQL++ > "] ++ rest)%list) /\
  (contextMake db = Ok tt ->
   given (passwordarg args) = false ->
   In (Linenoise "Password > ") (snd (main args home db input))).
Proof.
  intros Hhelp usage history maxLen opts.
  assert (Hhistory : snd (loadHistory args home) = history).
  { unfold loadHistory, history.
    destruct (given (historyFileArg args)); [ reflexivity | ].
    destruct home; reflexivity. }
  assert (HmaxLen : setHistoryMaxLen args = [maxLen]).
  { unfold setHistoryMaxLen, maxLen.
    destruct (given (historyMaxSizeArg args)); reflexivity. }
  split; [ | split; [ | split; [ | split ] ] ].
  - unfold main. rewrite Hhelp.
    cbn [helpFlag withoutHelp program_name connStringArg usernameArg].
    change (loadHistory (withoutHelp args) home) with (loadHistory args home).
    change (readPassword (withoutHelp args) input)
      with (readPassword args input).
    change (setHistoryMaxLen (withoutHelp args)) with (setHistoryMaxLen args).
    destruct (loadHistory args home) as [historyPath evs].
    destruct (contextMake db) as [ [] | x ]; [ | reflexivity ].
    destruct (readPassword args input) as [[ [ pw | ] input' ] evs' ];
      [ | reflexivity ].
    destruct (connectionMake db _) as [ conn | x ]; [ | reflexivity ].
    unfold print_usage. cbn [app].
    match goal with |- context [loop conn input' ?s0] =>
      match s0 with
      | {| calls := ?u :: ?l |} =>
          change s0
            with (preceded u
                    {| activeStatement := None; lineBuilder := EmptyString;
                       inMultLine := false; calls := l |});
          rewrite (loop_preceded u eq_refl)
      end
    end.
    destruct (loop conn input' _) as [[ | | x | ] s1]; reflexivity.
  - unfold main. rewrite Hhelp.
    destruct (loadHistory args home) as [historyPath evs].
    cbn [snd] in Hhistory. subst evs. unfold print_usage. fold usage.
    destruct (contextMake db) as [ [] | x ];
      [ | cbn [snd app]; rewrite <- app_assoc; cbn [app]; eauto ].
    destruct (readPassword args input) as [[ [ pw | ] input' ] evs' ];
      [ | cbn [snd app]; rewrite <- app_assoc; cbn [app]; eauto ].
    destruct (connectionMake db _) as [ conn | x ];
      [ | cbn [snd app]; rewrite <- !app_assoc; cbn [app]; eauto ].
    match goal with |- context [loop conn input' ?s0] =>
      destruct (loop_calls conn input' s0) as [rest Hrest];
      destruct (loop conn input' s0) as [flow s1] end.
    cbn [snd calls] in Hrest.
    destruct flow; cbn [snd]; rewrite Hrest; cbn [app];
      rewrite <- !app_assoc; cbn [app]; eauto.
  - intros conn Hctx Hgiven Hconn. unfold main, readPassword.
    rewrite Hhelp, Hctx, Hgiven, HmaxLen.
    destruct (loadHistory args home) as [historyPath evs].
    cbn [snd] in Hhistory. subst evs. unfold print_usage. fold usage.
    fold (opts (as_ (passwordarg args))). rewrite Hconn.
    match goal with |- context [loop conn input ?s0] =>
      destruct (loop_calls conn input s0) as [rest Hrest];
      destruct (loop conn input s0) as [flow s1] end.
    cbn [snd calls inMultLine promptText] in Hrest.
    destruct flow; cbn [snd]; rewrite Hrest; cbn [app];
      rewrite <- !app_assoc; cbn [app]; eauto.
  - intros pw input' conn Hctx Hgiven -> Hconn. unfold main, readPassword.
    rewrite Hhelp, Hctx, Hgiven, HmaxLen.
    destruct (loadHistory args home) as [historyPath evs].
    cbn [snd] in Hhistory. subst evs. unfold print_usage. fold usage.
    fold (opts pw). rewrite Hconn.
    match goal with |- context [loop conn input' ?s0] =>
      destruct (loop_calls conn input' s0) as [rest Hrest];
      destruct (loop conn input' s0) as [flow s1] end.
    cbn [snd calls inMultLine promptText] in Hrest.
    destruct flow; cbn [snd]; rewrite Hrest; cbn [app];
      rewrite <- !app_assoc; cbn [app]; eauto.
  - intros Hctx Hgiven. unfold main, readPassword. rewrite Hctx, Hgiven.
    destruct (loadHistory args home) as [historyPath evs].
    destruct input as [ | pw input' ].
    { cbn [snd]. apply in_or_app. right. cbn. auto. }
    destruct (connectionMake db _) as [ conn | x ].
    + match goal with |- context [loop conn input' ?s0] =>
        destruct (loop_calls conn input' s0) as [rest Hrest];
        destruct (loop conn input' s0) as [flow s1] end.
      cbn [snd calls] in Hrest.
      assert (Hin : In (Linenoise "Password > ") (calls s1)).
      { rewrite Hrest. apply in_or_app. left. apply in_or_app. right.
        cbn. auto. }
      destruct flow; cbn [snd]; try apply in_or_app; auto.
    + cbn [snd]. apply in_or_app. left. apply in_or_app. right. cbn. auto.
Qed.

(** ** Line continuation *)

Lemma string_app_assoc (a b c : string) :
  ((a ++ b) ++ c = a ++ (b ++ c))%string.
Proof. induction a as [ | x a IH ]; cbn; [ | rewrite IH ]; reflexivity. Qed.

(** The lines that end with a backslash, then one line that has a last
    character other than a backslash: the loop dispatches the fragments
    joined in order, on a session whose line builder is empty again. *)
Lemma continuation_joined conn (continued : list string) :
  forall final c input s,
    Forall (fun line => back line = Some BACKSLASH) continued ->
    back final = Some c ->
    c <> BACKSLASH ->
    exists s1,
      lineBuilder s1 = EmptyString /\
      inMultLine s1 = false /\
      activeStatement s1 = activeStatement s /\
      loop conn (continued ++ final :: input) s =
        match dispatch conn (lineBuilder s ++ joined continued ++ final) s1 with
        | (Continue, s2) => loop conn input s2
        | stop => stop
        end.
Proof.
  induction continued as [ | line continued IH ];
    intros final c input s Hcont Hback Hc; cbn [app loop joined].
  - unfold turn, accumulate. rewrite Hback.
    destruct (Ascii.eqb_spec c BACKSLASH) as [ | _ ]; [ contradiction | ].
    exists (setLine EmptyString false
              (call [LinenoiseSetMultiLine 0]
                 (call [Linenoise (promptText (inMultLine s))] s))).
    repeat split.
  - inversion Hcont as [ | ? ? Hline Hcont' ]; subst.
    unfold turn at 1, accumulate. rewrite Hline, Ascii.eqb_refl.
    match goal with |- context [loop conn _ ?s0] =>
      destruct (IH final c input s0 Hcont' Hback Hc)
        as (s1 & Hb & Hm & Ha & ->) end.
    exists s1. cbn [lineBuilder call setLine] in *.
    rewrite !string_app_assoc. auto.
Qed.

(** ** The statement kept by the session *)

(** A statement the database prepared and executed stays the active
    statement after its first page, whatever that page was. *)
Lemma submitStatement_keeps conn fullLine s :
  preparesAndExecutes conn (calls s) fullLine = true ->
  activeStatement (submitStatement conn fullLine s) <> None.
Proof.
  unfold submitStatement, preparesAndExecutes.
  cbn [calls call setActiveStatement].
  case_statement conn; discriminate.
Qed.

(** After [.it] the statement stays exactly if the page ended exhausted. *)
Lemma it_keeps_if_exhausted conn s stmt flag stmt' evs :
  activeStatement s = Some stmt ->
  fetchAndPrintResults stmt 20 = (Ok flag, stmt', evs) ->
  fst (dispatch conn ".it" s) = Continue /\
  activeStatement (snd (dispatch conn ".it" s)) =
    if flag then Some stmt' else None.
Proof.
  intros Hs Hpage. unfold dispatch. cbn. rewrite Hs, Hpage.
  destruct flag; auto.
Qed.

(** ** Errors of the driver *)

(** An exception in the page of [.it] leaves the loop. *)
Lemma it_raises conn s stmt e stmt' evs :
  activeStatement s = Some stmt ->
  fetchAndPrintResults stmt 20 = (Throw e, stmt', evs) ->
  fst (dispatch conn ".it" s) = Raise e.
Proof.
  intros Hs Hpage. unfold dispatch. cbn. rewrite Hs, Hpage. reflexivity.
Qed.

(** An exception in [describeTable] leaves the loop. *)
Lemma describe_raises conn fullLine s e :
  String.prefix kDescribeKeyword fullLine = true ->
  fst (describeTable conn
         (substr_from (String.length kDescribeKeyword) fullLine) (calls s)) =
    Throw e ->
  fst (dispatch conn fullLine s) = Raise e.
Proof.
  intros Hpre Hthrow. unfold dispatch.
  destruct (String.eqb_spec fullLine EmptyString) as [ -> | _ ];
    [ discriminate | ].
  destruct (String.eqb_spec fullLine ".exit") as [ -> | _ ];
    [ discriminate | ].
  destruct (String.eqb_spec fullLine ".it") as [ -> | _ ];
    [ discriminate | ].
  rewrite Hpre.
  destruct (describeTable conn _ (calls s)) as [[ [] | x ] made];
    cbn in Hthrow |- *; congruence.
Qed.

(** A submitted statement never leaves the loop: what the driver raises
    in it is caught. *)
Lemma statement_never_raises conn fullLine s :
  String.eqb fullLine ".it" = false ->
  String.prefix kDescribeKeyword fullLine = false ->
  forall e, fst (dispatch conn fullLine s) <> Raise e.
Proof.
  intros Hit Hdescribe e. unfold dispatch.
  destruct (String.eqb fullLine EmptyString); [ discriminate | ].
  destruct (String.eqb fullLine ".exit"); [ discriminate | ].
  rewrite Hit, Hdescribe. discriminate.
Qed.

(** The process ends with exit code 1 exactly in three cases: the context
    could not be made; the context was made, the password was there (from
    [-p] or typed) and the connection with the options of this run could not
    be made; or the connection was made and an exception left the loop run on
    that connection, on the lines typed after the password, from the session
    that has no statement, an empty line builder and the calls of the start
    behind it. *)
Lemma exit_1_only_fatal args home db input :
  let opts pw :=
    {| connString := as_ (connStringArg args);
       username := as_ (usernameArg args); password := pw |} in
  let started pw :=
    {| activeStatement := None; lineBuilder := EmptyString;
       inMultLine := false;
       calls :=
         (((if helpFlag args then print_usage (program_name args) else []) ++
           snd (loadHistory args home) ++ [ContextMake]) ++
          snd (readPassword args input) ++ setHistoryMaxLen args ++
          [ConnectionMake (opts pw)])%list |} in
  fst (main args home db input) = Return 1 <->
  (exists e, contextMake db = Throw e) \/
  (exists pw e,
     contextMake db = Ok tt /\
     fst (fst (readPassword args input)) = Some pw /\
     connectionMake db (opts pw) = Throw e) \/
  (exists pw conn e,
     contextMake db = Ok tt /\
     fst (fst (readPassword args input)) = Some pw /\
     connectionMake db (opts pw) = Ok conn /\
     fst (loop conn (snd (fst (readPassword args input))) (started pw)) =
       Raise e).
Proof.
  intros opts started. unfold main.
  destruct (loadHistory args home) as [historyPath evs]. cbn [snd] in started.
  destruct (contextMake db) as [ [] | x ].
  2:{ split; [ eauto | reflexivity ]. }
  destruct (readPassword args input) as [[ [ pw | ] input' ] evs' ];
    cbn [fst snd] in *.
  2:{ split; [ discriminate | ].
      intros [ (e & He) | [ (pw & e & _ & He & _)
                          | (pw & conn & e & _ & He & _) ] ];
        discriminate. }
  fold (opts pw).
  destruct (connectionMake db (opts pw)) as [ conn | x ] eqn:Hconn.
  2:{ split; [ intros _; right; left; exists pw, x; auto | reflexivity ]. }
  fold (started pw).
  destruct (loop conn input' (started pw)) as [flow s1] eqn:Hloop.
  split.
  - destruct flow; try discriminate. intros _. right. right.
    exists pw, conn, e. rewrite Hloop. auto.
  - intros [ (e & He) | [ (pw' & e & _ & [= <-] & He)
                        | (pw' & conn' & e & _ & [= <-] & Hc & Hr) ] ];
      try discriminate; try congruence.
    rewrite Hconn in Hc. injection Hc as <-. rewrite Hloop in Hr.
    cbn [fst] in Hr. subst flow. reflexivity.
Qed.

(** Only the full lines [.it] and [.describe ...] can make a turn raise. *)
Lemma turn_raise_only_meta conn line s e :
  fst (turn conn line s) = Raise e ->
  (lineBuilder s ++ line)%string = ".it" \/
  String.prefix kDescribeKeyword (lineBuilder s ++ line) = true.
Proof.
  unfold turn, accumulate.
  destruct (back line) as [ c | ]; [ | discriminate ].
  destruct (Ascii.eqb c BACKSLASH); [ discriminate | ].
  cbn [fst snd]. intros Hraise.
  destruct (String.eqb_spec (lineBuilder s ++ line) ".it") as [ | Hit ];
    [ auto | ].
  destruct (String.prefix kDescribeKeyword (lineBuilder s ++ line))
    eqn:Hdescribe; [ auto | ].
  apply String.eqb_neq in Hit.
  destruct (statement_never_raises conn _ _ Hit Hdescribe e Hraise).
Qed.

(** ** The empty line *)

(** C6.  On the empty line the loop calls [back] on an empty view, which is
    undefined: the turn does not reach the test of line 231 that would discard
    the line. *)
Theorem empty_line_undefined conn input s :
  back EmptyString = None /\
  turn conn EmptyString s = (Undefined, s) /\
  loop conn (EmptyString :: input) s =
    (Undefined, call [Linenoise (promptText (inMultLine s))] s).
Proof. repeat split. Qed.

(** C4.  A null cell is rendered by the rule of its native type: the text
    [<null>] assigned at line 82 is assigned over by the [switch]. *)
Theorem null_cell_rendered_by_type :
  formatColumnValue {| isNull := true; value := asBoolean true |} = "TRUE" /\
  formatColumnValue {| isNull := true; value := asInt64 42 |} = "42" /\
  formatColumnValue {| isNull := true; value := asBytes "ab c" |} =
    DQUOTE ++ "ab c" ++ DQUOTE /\
  formatColumnValue {| isNull := true; value := asOther |} =
    "unsupported type".
Proof. repeat split. Qed.

(** * Further properties *)

(** ** The calls of [fetch] of one page *)

Lemma rowLoop_fetch_count (pending : list FetchStep) :
  forall maxResults stmt row resCounter table widths r stmt' evs,
    rowLoop maxResults stmt pending row resCounter table widths =
      (r, stmt', evs) ->
    Z.of_nat (List.length (fetchAnswers evs)) <=
      Z.max 0 (maxResults - resCounter).
Proof.
  induction pending as [ | step pending IH ]; cbn [rowLoop]; intros until evs;
    destruct (Z.ltb_spec resCounter maxResults) as [ Hlt | Hge ];
    try (intros [= <- <- <-]; cbn; lia);
    case_columnLoop;
    try (intros [= <- <- <-]; cbn; lia).
  destruct step as [ next | e ]; [ | intros [= <- <- <-]; cbn; lia ].
  case_rowLoop E.
  intros [= <- <- <-]. apply IH in E. cbn [fetchAnswers List.length]. lia.
Qed.

(** One call of [fetchAndPrintResults] calls [fetch] at least once and at
    most [maxResults] times (once if [maxResults] is below 1), whatever the
    calls answer. *)
Theorem fetchAndPrintResults_fetch_bound stmt maxResults :
  let evs := snd (fetchAndPrintResults stmt maxResults) in
  1 <= Z.of_nat (List.length (fetchAnswers evs)) <= Z.max 1 maxResults.
Proof.
  unfold fetchAndPrintResults.
  destruct (fetch stmt) as [[ [ | ] | e ] stmt0]; cbn [snd];
    try (cbn; lia).
  case_rowLoop E.
  pose proof (rowLoop_fetch_count _ _ _ _ _ _ _ _ _ _ E) as Hcount.
  destruct r' as [ fin | e ]; cbn [snd fetchAnswers List.length].
  - rewrite fetchAnswers_app. cbn [fetchAnswers]. rewrite app_nil_r. lia.
  - lia.
Qed.

(** ** The number of rows a page announces *)

Lemma rowLoop_counts (pending : list FetchStep) :
  forall maxResults stmt row resCounter table widths fin stmt' evs,
    rowLoop maxResults stmt pending row resCounter table widths =
      (Ok fin, stmt', evs) ->
    end_resCounter fin = resCounter + rowsFetched evs /\
    Z.of_nat (List.length (rows (end_table fin))) =
      Z.of_nat (List.length (rows table)) + rowsFetched evs +
      (if end_wasExhaused fin then 1 else 0).
Proof.
  induction pending as [ | step pending IH ]; cbn [rowLoop]; intros until evs;
    destruct (resCounter <? maxResults);
    try (intros [= <- <- <-]; cbn; lia);
    case_columnLoop; try discriminate.
  - intros [= <- <- <-]. cbn [end_resCounter end_table end_wasExhaused].
    rewrite styleNulColumns_rows. cbn [rows add_row rowsFetched].
    rewrite length_app. cbn. lia.
  - destruct step as [ next | e ]; [ | discriminate ].
    case_rowLoop E. intros [= -> <- <-].
    apply IH in E. destruct E as [Hres Hlen].
    rewrite Hres, Hlen, styleNulColumns_rows. cbn [rows add_row rowsFetched].
    rewrite length_app. cbn [List.length]. lia.
Qed.

Lemma rowsFetched_app (evs1 evs2 : list Event) :
  rowsFetched (evs1 ++ evs2) = rowsFetched evs1 + rowsFetched evs2.
Proof.
  induction evs1 as [ | e evs1 IH ]; [ reflexivity | ].
  destruct e as [ | | | | | | | | | | | | | | | | [ [ | ] | ] ];
    cbn [rowsFetched app]; rewrite ?IH; lia.
Qed.

Lemma coutTexts_fetches (answers : list (option bool)) :
  coutTexts (map Fetch answers) = [].
Proof. induction answers; auto. Qed.

Lemma coutTexts_app (evs1 evs2 : list Event) :
  coutTexts (evs1 ++ evs2) = (coutTexts evs1 ++ coutTexts evs2)%list.
Proof.
  induction evs1 as [ | e evs1 IH ]; [ reflexivity | ].
  destruct e; cbn; rewrite ?IH; reflexivity.
Qed.

(** When the first call of [fetch] finds a row and the function returns, it
    prints one table and one text, [Fetched n rows], where [n] is the number
    of calls of [fetch] that found a row.  The table has the header and [n]
    rows if the page ended exhausted, and the header and [n - 1] rows if it
    did not: the row fetched last is then counted and not shown. *)
Theorem fetched_count_and_rows_shown stmt maxResults flag stmt' evs :
  fetchAndPrintResults stmt maxResults = (Ok flag, stmt', evs) ->
  hd_error (fetchAnswers evs) = Some (Some true) ->
  coutTexts evs = [fetchedText (rowsFetched evs)] /\
  exists t,
    tablesPrinted evs = [t] /\
    Z.of_nat (List.length t) =
      1 + rowsFetched evs - (if flag then 0 else 1).
Proof.
  unfold fetchAndPrintResults, fetch.
  destruct (pending stmt) as [ | [ row | e ] rest ];
    [ intros [= <- <- <-]; discriminate | | discriminate ].
  case_rowLoop E. destruct r' as [ fin | e ]; [ | discriminate ].
  intros [= <- <- <-] _.
  pose proof (rowLoop_calls _ _ _ _ _ _ _ _ _ _ E) as Hcalls.
  destruct (rowLoop_counts _ _ _ _ _ _ _ _ _ _ E) as [Hres Hlen].
  assert (Hnone : forall l, tablesPrinted (map Fetch l) = [])
    by (induction l; auto).
  assert (Hcout : coutTexts evs' = [])
    by (rewrite <- Hcalls; apply coutTexts_fetches).
  assert (Htab : tablesPrinted evs' = [])
    by (rewrite <- Hcalls; apply Hnone).
  cbn [coutTexts tablesPrinted rowsFetched].
  rewrite coutTexts_app, tablesPrinted_app, rowsFetched_app, Hcout, Htab.
  cbn [coutTexts tablesPrinted rowsFetched app]. rewrite Hres. split.
  - do 2 f_equal. lia.
  - eexists. split; [ reflexivity | ].
    rewrite Hlen. cbn [headerTable row_font_style add_row emptyTable rows app
                       List.length].
    destruct (end_wasExhaused fin); lia.
Qed.

(** ** Pages of a result set that raises nowhere *)

(** With [maxResults] at least 1 and at least one row left, a page shows the
    first [maxResults - 1] rows left (all of them if there are fewer), takes
    [maxResults] rows from the statement (all of them if there are fewer),
    and ends exhausted exactly if fewer than [maxResults] rows were left. *)
Theorem page_of_rows stmt r rs maxResults :
  pending stmt = map FetchRow (r :: rs) ->
  Forall (wellFormed stmt) (r :: rs) ->
  1 <= maxResults ->
  exists stmt' evs,
    fetchAndPrintResults stmt maxResults =
      (Ok (Z.of_nat (List.length (r :: rs)) <? maxResults), stmt', evs) /\
    tablesPrinted evs =
      [columns stmt ::
       map formatRow (firstn (Z.to_nat (maxResults - 1)) (r :: rs))] /\
    pending stmt' = map FetchRow (skipn (Z.to_nat maxResults) (r :: rs)).
Proof.
  intros Hpend Hwf Hmax.
  destruct (fetchAndPrintResults_page stmt r rs maxResults Hpend Hwf)
    as (stmt' & evs & Hpage & Htables & Hleft).
  exists stmt', evs. repeat split.
  - rewrite Hpage. do 2 f_equal.
    destruct (Nat.ltb_spec (List.length rs) (Z.to_nat (maxResults - 1)));
      destruct (Z.ltb_spec (Z.of_nat (List.length (r :: rs))) maxResults);
      cbn [List.length] in *; try reflexivity; lia.
  - exact Htables.
  - rewrite Hleft.
    replace (Z.to_nat maxResults) with (S (Z.to_nat (maxResults - 1))) by lia.
    reflexivity.
Qed.

(** [describeTable] shows the whole answer of the catalog query in one
    table, as long as the answer has fewer than [INT_MAX] rows. *)
Theorem describeTable_single_page conn tableName made stmt stmt' r rs :
  prepareStatement conn (driverCalls (made ++ [NewArrayVariable tableName]))
    describeStmtStr = Ok stmt ->
  execute conn
    (driverCalls ((made ++ [NewArrayVariable tableName]) ++
                  [PrepareStatement describeStmtStr]))
    (bindByPos 1 tableName stmt) = Ok stmt' ->
  pending stmt' = map FetchRow (r :: rs) ->
  Forall (wellFormed stmt') (r :: rs) ->
  Z.of_nat (List.length (r :: rs)) < INT_MAX ->
  fst (describeTable conn tableName made) = Ok tt /\
  tablesPrinted (snd (describeTable conn tableName made)) =
    (tablesPrinted made ++ [columns stmt' :: map formatRow (r :: rs)])%list.
Proof.
  intros Hprep Hexec Hpend Hwf Hlen.
  unfold describeTable. rewrite Hprep, Hexec.
  destruct (fetchAndPrintResults_page stmt' r rs INT_MAX Hpend Hwf)
    as (stmt'' & evs & -> & Htables & _).
  cbn [fst snd]. split; [ reflexivity | ].
  rewrite !tablesPrinted_app, Htables. cbn [tablesPrinted app].
  rewrite !app_nil_r, firstn_all2; [ reflexivity | ].
  unfold INT_MAX in *. cbn [List.length] in *. lia.
Qed.

(** ** The italic requests for null cells *)

Lemma set_insert_last (nul : list Z) (x : Z) :
  Forall (fun y => y < x) nul -> set_insert x nul = (nul ++ [x])%list.
Proof.
  induction 1 as [ | y nul Hy _ IH ]; cbn; [ reflexivity | ].
  destruct (Z.ltb_spec x y); [ lia | ].
  destruct (Z.eqb_spec x y); [ lia | ]. rewrite IH. reflexivity.
Qed.

(** On a row with a value at every position visited, the column loop
    gathers the texts of the values and the positions of the null ones. *)
Lemma columnLoop_cells (vals : list OracleColumnValue) :
  forall stmt before acc,
    currentRow stmt = (before ++ vals)%list ->
    Forall (fun y => y < Z.of_nat (List.length before)) (nulColumns acc) ->
    exists cells,
      columnLoop stmt (seq (S (List.length before)) (List.length vals)) acc =
        Ok cells /\
      rowValues cells = (rowValues acc ++ formatRow vals)%list /\
      nulColumns cells =
        (nulColumns acc ++
         nullPositions (Z.of_nat (List.length before)) vals)%list.
Proof.
  induction vals as [ | v vals IH ]; intros stmt before acc Hrow Hnul.
  - exists acc. cbn. rewrite !app_nil_r. auto.
  - cbn [List.length seq columnLoop]. unfold getColumnValue.
    replace (S (List.length before) - 1)%nat with (List.length before) by lia.
    rewrite Hrow, nth_error_app2, Nat.sub_diag by lia. cbn [nth_error].
    specialize (IH stmt (before ++ [v])%list).
    rewrite length_app, Nat.add_1_r in IH.
    replace (Z.of_nat (S (List.length before)) - 1)
      with (Z.of_nat (List.length before)) by lia.
    match goal with |- context [columnLoop stmt _ ?a] =>
      destruct (IH a) as (cells & Hloop & Hvals & Hpos) end.
    { rewrite Hrow, <- app_assoc. reflexivity. }
    { cbn [nulColumns]. destruct (isNull v).
      - rewrite set_insert_last by exact Hnul.
        apply Forall_app. split.
        + eapply Forall_impl; [ | exact Hnul ]. cbn. intros; lia.
        + constructor; [ lia | constructor ].
      - eapply Forall_impl; [ | exact Hnul ]. cbn. intros; lia. }
    exists cells. split; [ exact Hloop | ].
    rewrite Hvals, Hpos. cbn [rowValues nulColumns formatRow map nullPositions].
    replace (Z.of_nat (S (List.length before)))
      with (Z.of_nat (List.length before) + 1) by lia.
    destruct (isNull v); [ rewrite set_insert_last by exact Hnul | ];
      rewrite <- ?app_assoc; auto.
Qed.

Lemma styleNulColumns_styles (nul : list Z) :
  forall resCounter table,
    cellStyles (styleNulColumns resCounter nul table) =
      (cellStyles table ++
       map (fun col => (resCounter + 1, col, italic)) nul)%list /\
    rowStyles (styleNulColumns resCounter nul table) = rowStyles table.
Proof.
  induction nul as [ | col nul IH ]; intros; cbn [styleNulColumns map].
  - rewrite app_nil_r. auto.
  - destruct (IH resCounter
                (cell_font_style (resCounter + 1) col italic table))
      as [-> ->].
    cbn [cellStyles rowStyles cell_font_style]. rewrite <- app_assoc. auto.
Qed.

Lemma rowLoop_styles (rs : list (list OracleColumnValue)) :
  forall maxResults stmt row resCounter table widths,
    wellFormed stmt row ->
    Forall (wellFormed stmt) rs ->
    let k := Z.to_nat (maxResults - resCounter) in
    exists fin stmt' evs,
      rowLoop maxResults stmt (map FetchRow rs) row resCounter table widths =
        (Ok fin, stmt', evs) /\
      cellStyles (end_table fin) =
        (cellStyles table ++
         italicRequests resCounter (firstn k (row :: rs)))%list /\
      rowStyles (end_table fin) = rowStyles table.
Proof.
  induction rs as [ | next rs IH ];
    intros maxResults stmt row resCounter table widths Hrow Hrs k;
    cbn [map rowLoop];
    destruct (Z.ltb_spec resCounter maxResults) as [ Hlt | Hge ].
  - destruct (columnLoop_cells row (withFetch stmt row []) []
                {| rowValues := []; nulColumns := []; columnWidths := widths |}
                eq_refl (Forall_nil _)) as (cells & Hloop & _ & Hpos).
    cbn [List.length] in Hloop. unfold numColumns at 1.
    cbn [columns withFetch]. fold (numColumns stmt). rewrite <- Hrow, Hloop.
    do 3 eexists. split; [ reflexivity | ]. cbn [end_table].
    destruct (styleNulColumns_styles (nulColumns cells) resCounter
                (add_row (rowValues cells) table)) as [-> ->].
    rewrite Hpos. cbn [cellStyles rowStyles add_row nulColumns app List.length].
    destruct k as [ | k' ] eqn:Hk; [ lia | ].
    cbn [firstn italicRequests]. rewrite firstn_nil. cbn [italicRequests].
    rewrite app_nil_r. auto.
  - do 3 eexists. split; [ reflexivity | ].
    replace k with O by lia. cbn. rewrite app_nil_r. auto.
  - destruct (columnLoop_cells row
                (withFetch stmt row (FetchRow next :: map FetchRow rs)) []
                {| rowValues := []; nulColumns := []; columnWidths := widths |}
                eq_refl (Forall_nil _)) as (cells & Hloop & _ & Hpos).
    cbn [List.length] in Hloop. unfold numColumns at 1.
    cbn [columns withFetch]. fold (numColumns stmt). rewrite <- Hrow, Hloop.
    inversion Hrs as [ | ? ? Hnext Hrs' ]; subst.
    match goal with |- context [rowLoop ?a ?b ?c ?d ?e ?f ?g] =>
      destruct (IH a b d e f g Hnext Hrs')
        as (fin & stmt' & evs & -> & Hcells & Hrows) end.
    do 3 eexists. split; [ reflexivity | ].
    rewrite Hcells, Hrows.
    destruct (styleNulColumns_styles (nulColumns cells) resCounter
                (add_row (rowValues cells) table)) as [-> ->].
    rewrite Hpos. cbn [cellStyles rowStyles add_row nulColumns app List.length].
    replace k with (S (Z.to_nat (maxResults - (resCounter + 1)))) by lia.
    cbn [firstn italicRequests]. rewrite <- app_assoc. auto.
  - do 3 eexists. split; [ reflexivity | ].
    replace k with O by lia. cbn. rewrite app_nil_r. auto.
Qed.

Lemma italicRequests_below (shown : list (list OracleColumnValue)) :
  forall resCounter idx col f,
    In (idx, col, f) (italicRequests resCounter shown) ->
    resCounter + 1 <= idx <= resCounter + Z.of_nat (List.length shown).
Proof.
  induction shown as [ | row shown IH ]; intros resCounter idx col f;
    cbn [italicRequests List.length]; [ contradiction | ].
  rewrite in_app_iff, in_map_iff. intros [ (c & [= <- <- <-] & _) | Hin ].
  - lia.
  - apply IH in Hin. lia.
Qed.

(** The table of a page has the header at row 0 and the rows shown from row
    1 on, and the italic request for the null cells of the row shown at row
    [i] names the row [i + 1]: no request names the row 1, and the requests of
    the last row shown name a row the table does not have. *)
Theorem italic_requests_one_row_below stmt r rs maxResults :
  pending stmt = map FetchRow (r :: rs) ->
  Forall (wellFormed stmt) (r :: rs) ->
  let shown := firstn (Z.to_nat (maxResults - 1)) (r :: rs) in
  exists t,
    printedTables (snd (fetchAndPrintResults stmt maxResults)) = [t] /\
    rows t = columns stmt :: map formatRow shown /\
    rowStyles t = [(0, bold)] /\
    cellStyles t = italicRequests 1 shown /\
    forall idx col f,
      In (idx, col, f) (cellStyles t) ->
      2 <= idx <= Z.of_nat (List.length (rows t)).
Proof.
  intros Hpend Hwf shown. inversion Hwf as [ | ? ? Hr Hrs ]; subst.
  unfold fetchAndPrintResults, fetch. rewrite Hpend. cbn [map].
  cbn [pending currentRow withFetch].
  set (stmt0 := withFetch stmt r (map FetchRow rs)).
  destruct (rowLoop_styles rs maxResults stmt0 r 1 (headerTable stmt0)
              (headerWidths stmt0) Hr Hrs)
    as (fin & stmt' & evs & Hloop & Hcells & Hrows).
  destruct (rowLoop_rows rs maxResults stmt0 r 1 (headerTable stmt0)
              (headerWidths stmt0) Hr Hrs)
    as (fin' & stmt'' & evs'' & Hloop' & Hshown & _).
  rewrite Hloop in Hloop'. injection Hloop' as <- <- <-.
  rewrite Hloop. cbn [snd printedTables].
  assert (Hnone : forall l, printedTables (map Fetch l) = [])
    by (induction l; auto).
  assert (Htab : printedTables evs = []).
  { rewrite <- (rowLoop_calls _ _ _ _ _ _ _ _ _ _ Hloop). apply Hnone. }
  exists (end_table fin).
  assert (Hprinted :
    printedTables
      (evs ++ [CoutTable (end_table fin);
               Cout (fetchedText (end_resCounter fin))]) = [end_table fin]).
  { clear - Htab. induction evs as [ | e evs IH ]; [ reflexivity | ].
    destruct e; cbn in Htab |- *; try discriminate; auto. }
  rewrite Hprinted. split; [ reflexivity | ].
  fold shown in Hshown, Hcells. split; [ exact Hshown | ].
  split; [ exact Hrows | ]. split; [ exact Hcells | ].
  intros idx col f Hin. rewrite Hcells in Hin. cbn [cellStyles headerTable
    row_font_style add_row emptyTable app] in Hin.
  apply italicRequests_below in Hin. rewrite Hshown.
  cbn [rows headerTable row_font_style add_row emptyTable app List.length].
  rewrite length_map. lia.
Qed.

(** ** Continued lines, by their fragments *)

Lemma back_continuedLine (fragment : string) :
  back (continuedLine fragment) = Some BACKSLASH.
Proof.
  unfold continuedLine.
  induction fragment as [ | c fragment IH ]; [ reflexivity | ].
  cbn [append back]. rewrite IH.
  destruct (fragment ++ String BACKSLASH EmptyString)%string eqn:E;
    [ destruct fragment; discriminate | reflexivity ].
Qed.

Lemma drop_last_continuedLine (fragment : string) :
  drop_last (continuedLine fragment) = fragment.
Proof.
  unfold continuedLine.
  induction fragment as [ | c fragment IH ]; [ reflexivity | ].
  cbn [append drop_last]. rewrite IH.
  destruct (fragment ++ String BACKSLASH EmptyString)%string eqn:E;
    [ destruct fragment; discriminate | reflexivity ].
Qed.

Lemma joined_continuedLines (fragments : list string) :
  joined (map continuedLine fragments) = concatenated fragments.
Proof.
  induction fragments as [ | f fragments IH ]; [ reflexivity | ].
  cbn [map joined concatenated fold_right].
  rewrite drop_last_continuedLine, IH. reflexivity.
Qed.

(** The user types the fragments, each followed by a backslash, and then a
    line that has a last character other than a backslash.  Starting with an
    empty line builder, the loop does with that input what it does with the
    one full line made of the fragments and the last line, joined in order
    with nothing between them; the statement of the session is untouched in
    between and the line builder is empty again. *)
Theorem continuation_fragments conn fragments final c input s :
  lineBuilder s = EmptyString ->
  back final = Some c ->
  c <> BACKSLASH ->
  exists s1,
    lineBuilder s1 = EmptyString /\
    inMultLine s1 = false /\
    activeStatement s1 = activeStatement s /\
    loop conn (map continuedLine fragments ++ final :: input) s =
      match dispatch conn (concatenated fragments ++ final) s1 with
      | (Continue, s2) => loop conn input s2
      | stop => stop
      end.
Proof.
  intros Hline Hback Hc.
  destruct (continuation_joined conn (map continuedLine fragments) final c
              input s) as (s1 & Hb & Hm & Ha & Hloop); auto.
  { apply Forall_forall. intros line Hin. apply in_map_iff in Hin.
    destruct Hin as (f & <- & _). apply back_continuedLine. }
  exists s1. rewrite Hloop, Hline, joined_continuedLines. auto.
Qed.

(** ** What the loop calls *)

Lemma fetchAndPrintResults_loopCalls stmt maxResults :
  Forall (fun e => loopCall e = true)
    (snd (fetchAndPrintResults stmt maxResults)).
Proof.
  assert (Hfetch : forall l,
            Forall (fun e => loopCall e = true) (map Fetch l)).
  { induction l; constructor; auto. }
  unfold fetchAndPrintResults.
  destruct (fetch stmt) as [[ [ | ] | e ] stmt0]; cbn [snd];
    try (repeat constructor).
  case_rowLoop E. apply rowLoop_calls in E.
  assert (Hevs : Forall (fun e => loopCall e = true) evs')
    by (rewrite <- E; apply Hfetch).
  destruct r'; cbn [snd]; constructor; try reflexivity; try assumption.
  apply Forall_app. split; [ assumption | repeat constructor ].
Qed.

Lemma page_loopCalls stmt maxResults r stmt' evs :
  fetchAndPrintResults stmt maxResults = (r, stmt', evs) ->
  Forall (fun e => loopCall e = true) evs.
Proof.
  intros H. pose proof (fetchAndPrintResults_loopCalls stmt maxResults) as Hl.
  rewrite H in Hl. exact Hl.
Qed.

Ltac loopCalls_step :=
  repeat (apply Forall_app; split); try assumption;
  repeat constructor.

Lemma describeTable_loopCalls conn tableName made :
  exists evs,
    snd (describeTable conn tableName made) = (made ++ evs)%list /\
    Forall (fun e => loopCall e = true) evs.
Proof.
  unfold describeTable.
  case_statement conn; cbn [snd];
    try (apply page_loopCalls in Hpage);
    rewrite <- ?app_assoc; eexists; (split; [ reflexivity | ]);
    loopCalls_step.
Qed.

Lemma submitStatement_loopCalls conn fullLine s :
  exists evs,
    calls (submitStatement conn fullLine s) = (calls s ++ evs)%list /\
    Forall (fun e => loopCall e = true) evs.
Proof.
  unfold submitStatement.
  case_statement conn; cbn [calls call setActiveStatement];
    try (apply page_loopCalls in Hpage);
    rewrite <- ?app_assoc; eexists; (split; [ reflexivity | ]);
    loopCalls_step.
Qed.

Lemma dispatch_loopCalls conn fullLine s :
  exists evs,
    calls (snd (dispatch conn fullLine s)) = (calls s ++ evs)%list /\
    Forall (fun e => loopCall e = true) evs.
Proof.
  unfold dispatch.
  destruct (String.eqb fullLine EmptyString);
    [ exists []; cbn; rewrite app_nil_r; auto | ].
  destruct (String.eqb fullLine ".exit");
    [ exists []; cbn; rewrite app_nil_r; auto | ].
  destruct (String.eqb fullLine ".it").
  { destruct (activeStatement s) as [ stmt | ];
      [ | cbn; eexists; split; [ reflexivity | repeat constructor ] ].
    destruct (fetchAndPrintResults stmt 20) as [[[ [ | ] | x ] st] evs]
      eqn:Hpage; apply page_loopCalls in Hpage; cbn; eauto. }
  destruct (String.prefix kDescribeKeyword fullLine).
  { match goal with |- context [describeTable ?c ?t ?m] =>
      destruct (describeTable_loopCalls c t m) as (evs & Hevs & Hall);
      destruct (describeTable c t m) as [[ [] | x ] made] end;
      cbn in Hevs |- *; subst made; rewrite <- ?app_assoc;
      eexists; (split; [ reflexivity | ]); loopCalls_step. }
  apply submitStatement_loopCalls.
Qed.

Lemma turn_loopCalls conn line s :
  exists evs,
    calls (snd (turn conn line s)) = (calls s ++ evs)%list /\
    Forall (fun e => loopCall e = true) evs.
Proof.
  unfold turn, accumulate.
  destruct (back line) as [ c | ];
    [ | exists []; cbn; rewrite app_nil_r; auto ].
  destruct (Ascii.eqb c BACKSLASH);
    [ cbn; eexists; split; [ reflexivity | repeat constructor ] | ].
  match goal with |- context [dispatch ?c ?l ?s0] =>
    destruct (dispatch_loopCalls c l s0) as (evs & -> & Hall) end.
  cbn. rewrite <- app_assoc. eexists. split; [ reflexivity | ].
  loopCalls_step.
Qed.

Lemma loop_loopCalls conn (input : list string) :
  forall s,
    exists evs,
      calls (snd (loop conn input s)) = (calls s ++ evs)%list /\
      Forall (fun e => loopCall e = true) evs.
Proof.
  induction input as [ | line input IH ]; intros s; cbn [loop].
  - cbn. eexists. split; [ reflexivity | repeat constructor ].
  - destruct (turn_loopCalls conn line
                (call [Linenoise (promptText (inMultLine s))] s))
      as (evs & Hevs & Hall).
    destruct (turn conn line _) as [[ | | x | ] s1]; cbn [snd] in Hevs |- *;
      try (rewrite Hevs; cbn; rewrite <- app_assoc; eexists;
           split; [ reflexivity | loopCalls_step ]).
    destruct (IH s1) as (rest & -> & Hrest). rewrite Hevs. cbn.
    rewrite <- !app_assoc. eexists. split; [ reflexivity | ].
    loopCalls_step.
Qed.

Lemma historySaved_app (evs1 evs2 : list Event) :
  historySaved (evs1 ++ evs2) = (historySaved evs1 ++ historySaved evs2)%list.
Proof.
  induction evs1 as [ | e evs1 IH ]; [ reflexivity | ].
  destruct e; cbn; rewrite ?IH; reflexivity.
Qed.


Lemma loopCalls_quiet (evs : list Event) :
  Forall (fun e => loopCall e = true) evs ->
  historySaved evs = [] /\ maskCalls evs = [].
Proof.
  induction 1 as [ | e evs He _ [IHs IHm] ]; [ auto | ].
  destruct e; cbn in He |- *; try discriminate; auto.
Qed.

(** ** The history file and the masked mode *)

Lemma startup_quiet args home :
  let evs :=
    ((if helpFlag args then print_usage (program_name args) else []) ++
     snd (loadHistory args home) ++ [ContextMake])%list in
  historySaved evs = [] /\ maskCalls evs = [].
Proof.
  unfold loadHistory, print_usage.
  destruct (helpFlag args), (given (historyFileArg args)), home; auto.
Qed.

Lemma setHistoryMaxLen_quiet args opts :
  let evs := (setHistoryMaxLen args ++ [ConnectionMake opts])%list in
  historySaved evs = [] /\ maskCalls evs = [].
Proof.
  unfold setHistoryMaxLen. destruct (given (historyMaxSizeArg args)); auto.
Qed.

Lemma readPassword_quiet args input :
  historySaved (snd (readPassword args input)) = [].
Proof.
  unfold readPassword.
  destruct (given (passwordarg args)), input; reflexivity.
Qed.

(** The history is saved exactly when [main] returns 0 and a history path is
    known (from [--historyFile], else from [HOME]), and then once, to that
    path, as the last call.  A run that ends with exit code 1 does not save
    it. *)
Theorem history_saved_on_exit_0 args home db input :
  let historyPath := fst (loadHistory args home) in
  let saved :=
    match fst (main args home db input) with
    | Return code =>
        if (code =? 0) && negb (String.eqb historyPath EmptyString)
        then [historyPath] else []
    | UndefinedBehaviour => []
    end in
  historySaved (snd (main args home db input)) = saved /\
  (saved <> [] ->
   last (snd (main args home db input)) ContextMake =
     LinenoiseHistorySave historyPath).
Proof.
  unfold main.
  destruct (startup_quiet args home) as [Hs _]. cbn zeta in Hs.
  destruct (loadHistory args home) as [historyPath evs]. cbn [fst snd] in *.
  set (log0 := ((if helpFlag args then print_usage (program_name args)
                 else []) ++ evs ++ [ContextMake])%list) in *.
  destruct (contextMake db) as [ [] | x ].
  2:{ cbn [fst snd Z.eqb andb]. rewrite historySaved_app, Hs.
      split; [ reflexivity | congruence ]. }
  pose proof (readPassword_quiet args input) as Hp.
  destruct (readPassword args input) as [[ [ pw | ] input' ] evs' ];
    cbn [snd] in Hp.
  2:{ cbn [fst snd]. rewrite historySaved_app, Hs, Hp.
      split; [ reflexivity | congruence ]. }
  match goal with |- context [ConnectionMake ?o] =>
    destruct (setHistoryMaxLen_quiet args o) as [Hm _];
    set (opts := o) in * end.
  cbn zeta in Hm.
  set (log1 := (setHistoryMaxLen args ++ [ConnectionMake opts])%list) in *.
  destruct (connectionMake db opts) as [ conn | x ].
  2:{ cbn [fst snd Z.eqb andb]. rewrite !historySaved_app, Hs, Hp, Hm.
      split; [ reflexivity | congruence ]. }
  match goal with |- context [loop conn input' ?s0] =>
    destruct (loop_loopCalls conn input' s0) as (rest & Hrest & Hall);
    destruct (loop conn input' s0) as [flow s1] end.
  cbn [snd calls] in Hrest. apply loopCalls_quiet in Hall.
  destruct Hall as [Hq _].
  assert (Hcalls : historySaved (calls s1) = []).
  { rewrite Hrest, !historySaved_app, Hs, Hp, Hm, Hq. reflexivity. }
  unfold saveHistory.
  destruct flow; cbn [fst snd Z.eqb andb];
    try (rewrite ?historySaved_app, ?Hcalls;
         split; [ reflexivity | congruence ]);
    destruct (String.eqb historyPath EmptyString); cbn [negb];
    rewrite ?historySaved_app, ?Hcalls, ?app_nil_r; cbn [historySaved app];
    (split; [ reflexivity | try congruence ]);
    intros _; apply last_last.
Qed.


(** ** The line builder between full lines *)

Lemma submitStatement_line conn fullLine s :
  lineBuilder (submitStatement conn fullLine s) = lineBuilder s /\
  inMultLine (submitStatement conn fullLine s) = inMultLine s.
Proof. unfold submitStatement. case_statement conn; auto. Qed.

Lemma dispatch_line conn fullLine s :
  lineBuilder (snd (dispatch conn fullLine s)) = lineBuilder s /\
  inMultLine (snd (dispatch conn fullLine s)) = inMultLine s.
Proof.
  unfold dispatch.
  destruct (String.eqb fullLine EmptyString); [ auto | ].
  destruct (String.eqb fullLine ".exit"); [ auto | ].
  destruct (String.eqb fullLine ".it").
  { destruct (activeStatement s) as [ stmt | ]; [ | auto ].
    destruct (fetchAndPrintResults stmt 20) as [[[ [ | ] | x ] st] evs];
      auto. }
  destruct (String.prefix kDescribeKeyword fullLine).
  { destruct (describeTable conn _ (calls s)) as [[ [] | x ] made]; auto. }
  apply submitStatement_line.
Qed.

Lemma turn_line conn line s :
  let s' := snd (turn conn line s) in
  (inMultLine s = false -> lineBuilder s = EmptyString) ->
  inMultLine s' = false -> lineBuilder s' = EmptyString.
Proof.
  unfold turn, accumulate.
  destruct (back line) as [ c | ]; [ | auto ].
  destruct (Ascii.eqb c BACKSLASH); [ discriminate | ].
  match goal with |- context [dispatch ?c ?l ?s0] =>
    destruct (dispatch_line c l s0) as [Hb Hm] end.
  cbn zeta. rewrite Hb. reflexivity.
Qed.

(** Outside a continuation the line builder is empty: if that holds of the
    session before the loop, it holds of the session the loop ends with,
    whatever was typed and however the loop ended. *)
Theorem line_builder_empty_outside_continuation conn input s :
  (inMultLine s = false -> lineBuilder s = EmptyString) ->
  inMultLine (snd (loop conn input s)) = false ->
  lineBuilder (snd (loop conn input s)) = EmptyString.
Proof.
  revert s. induction input as [ | line input IH ]; intros s Hs; cbn [loop].
  - exact Hs.
  - pose proof (turn_line conn line
                  (call [Linenoise (promptText (inMultLine s))] s) Hs)
      as Hturn.
    cbn zeta in Hturn.
    destruct (turn conn line _) as [[ | | x | ] s1]; cbn [snd] in *;
      try exact Hturn.
    apply IH, Hturn.
Qed.

(** ** What is sent to the database *)

Lemma preparedTexts_app (evs1 evs2 : list Event) :
  preparedTexts (evs1 ++ evs2) =
  (preparedTexts evs1 ++ preparedTexts evs2)%list.
Proof.
  induction evs1 as [ | e evs1 IH ]; [ reflexivity | ].
  destruct e; cbn; rewrite ?IH; reflexivity.
Qed.

Lemma page_prepared stmt maxResults r stmt' evs :
  fetchAndPrintResults stmt maxResults = (r, stmt', evs) ->
  preparedTexts evs = [].
Proof.
  assert (Hnone : forall l, preparedTexts (map Fetch l) = [])
    by (induction l; auto).
  unfold fetchAndPrintResults.
  destruct (fetch stmt) as [[ [ | ] | e ] stmt0];
    try (intros [= <- <- <-]; reflexivity).
  case_rowLoop E. apply rowLoop_calls in E.
  destruct r'; intros [= <- <- <-]; cbn [preparedTexts];
    rewrite ?preparedTexts_app, <- E, Hnone; reflexivity.
Qed.

(** A full line that is not empty, is not [.exit] or [.it] letter for
    letter and does not start with [.describe ] is given to
    [prepareStatement] as it is, spaces included, and nothing else is
    prepared: [.exit] followed by a space is a statement. *)
Theorem statement_prepared_as_typed conn fullLine s :
  fullLine <> EmptyString ->
  fullLine <> ".exit" ->
  fullLine <> ".it" ->
  String.prefix kDescribeKeyword fullLine = false ->
  fst (dispatch conn fullLine s) = Continue /\
  preparedTexts (calls (snd (dispatch conn fullLine s))) =
    (preparedTexts (calls s) ++ [fullLine])%list.
Proof.
  intros Hblank Hexit Hit Hdescribe. unfold dispatch.
  apply String.eqb_neq in Hblank, Hexit, Hit.
  rewrite Hblank, Hexit, Hit, Hdescribe. split; [ reflexivity | ].
  cbn [snd]. unfold submitStatement.
  case_statement conn; cbn [calls call setActiveStatement];
    try (apply page_prepared in Hpage);
    rewrite !preparedTexts_app, ?Hpage; cbn [preparedTexts app];
    rewrite ?app_nil_r; reflexivity.
Qed.

Lemma describeTable_prepared conn tableName made :
  preparedTexts (snd (describeTable conn tableName made)) =
    (preparedTexts made ++ [describeStmtStr])%list /\
  exists rest,
    snd (describeTable conn tableName made) =
      (made ++ NewArrayVariable tableName ::
               PrepareStatement describeStmtStr :: rest)%list.
Proof.
  unfold describeTable.
  case_statement conn; cbn [snd];
    try (apply page_prepared in Hpage);
    rewrite !preparedTexts_app, ?Hpage; cbn [preparedTexts app];
    rewrite ?app_nil_r; (split; [ reflexivity | ]);
    rewrite <- !app_assoc; cbn [app]; eauto.
Qed.

(** Whatever follows [.describe ] in the full line, to the end of the line
    and as typed, is the table name given to the driver as the value of a
    variable; the one text prepared is the fixed [describeStmtStr], in which
    the name has no part.  The statement of the session, if any, stays the
    active one. *)
Theorem describe_binds_the_name conn tableName s :
  let r := dispatch conn (kDescribeKeyword ++ tableName) s in
  activeStatement (snd r) = activeStatement s /\
  preparedTexts (calls (snd r)) =
    (preparedTexts (calls s) ++ [describeStmtStr])%list /\
  exists rest,
    calls (snd r) =
      (calls s ++ NewArrayVariable tableName ::
                  PrepareStatement describeStmtStr :: rest)%list.
Proof.
  unfold dispatch.
  change (String.eqb (kDescribeKeyword ++ tableName) EmptyString) with false.
  change (String.eqb (kDescribeKeyword ++ tableName) ".exit") with false.
  change (String.eqb (kDescribeKeyword ++ tableName) ".it") with false.
  assert (Hprefix : String.prefix kDescribeKeyword
                      (kDescribeKeyword ++ tableName) = true).
  { cbn. destruct tableName; reflexivity. }
  rewrite Hprefix.
  change (substr_from (String.length kDescribeKeyword)
            (kDescribeKeyword ++ tableName)) with tableName.
  destruct (describeTable_prepared conn tableName (calls s))
    as (Hprep & rest & Hrest).
  destruct (describeTable conn tableName (calls s)) as [[ [] | x ] made];
    cbn [snd] in *; cbn [activeStatement calls call setCalls];
    subst made; (split; [ reflexivity | ]).
  - rewrite preparedTexts_app, Hprep. cbn. rewrite app_nil_r.
    split; [ reflexivity | ]. rewrite <- app_assoc. cbn. eauto.
  - split; [ exact Hprep | eauto ].
Qed.

(** ** The statement after a submitted line *)

(** After a full line submitted as a statement: if the database does not
    prepare it, the statement of the session is the one it had before; if the
    database prepares it and does not execute it, the prepared statement is
    the active one; if it executes it, the active statement is the new one as
    its first page left it, also when that page raised. *)
Theorem statement_after_submission conn fullLine s :
  fullLine <> EmptyString ->
  fullLine <> ".exit" ->
  fullLine <> ".it" ->
  String.prefix kDescribeKeyword fullLine = false ->
  activeStatement (snd (dispatch conn fullLine s)) =
    match prepareStatement conn (driverCalls (calls s)) fullLine with
    | Throw _ => activeStatement s
    | Ok stmt =>
        match execute conn
                (driverCalls (calls s ++ [PrepareStatement fullLine])) stmt with
        | Throw _ => Some stmt
        | Ok stmt' => Some (snd (fst (fetchAndPrintResults stmt' 20)))
        end
    end.
Proof.
  intros Hblank Hexit Hit Hdescribe. unfold dispatch.
  apply String.eqb_neq in Hblank, Hexit, Hit.
  rewrite Hblank, Hexit, Hit, Hdescribe. cbn [snd]. unfold submitStatement.
  cbn [calls call setActiveStatement].
  destruct (prepareStatement conn _ fullLine) as [ stmt | x ];
    [ | reflexivity ].
  destruct (execute conn _ stmt) as [ stmt' | x ]; [ | reflexivity ].
  destruct (fetchAndPrintResults stmt' 20) as [[[ flag | x ] st'] evs];
    reflexivity.
Qed.

End Properties.

(** * Runs on the sample database *)

Section Runs.
#[local] Existing Instance noFloats.

(** C1.  The session keeps the statement where the claim has it dropped, and
    drops it where the claim has it kept.  With 3 rows the first page ends
    exhausted and the statement stays; with no row [No rows returned] is
    printed and the statement stays; with 45 rows the page of [.it] ends
    without exhaustion and the statement is dropped, so that a second [.it]
    finds none; with 25 rows the page of [.it] ends exhausted and the
    statement stays. *)
Theorem statement_kept_after_exhaustion :
  fst (fst (fetchAndPrintResults
              (executedStatement "select n from t" ["N"]
                 (map FetchRow (numbers 1 3))) 20)) = Ok true /\
  activeStatement
    (snd (loop (sampleConnection 3) ["select n from t"] freshSession))
    <> None /\
  coutTexts
    (calls (snd (loop (sampleConnection 0) ["select n from t"] freshSession)))
    = ["No rows returned" ++ LF] /\
  activeStatement
    (snd (loop (sampleConnection 0) ["select n from t"] freshSession))
    <> None /\
  activeStatement
    (snd (loop (sampleConnection 45) ["select n from t"; ".it"] freshSession))
    = None /\
  coutTexts
    (calls (snd (loop (sampleConnection 45)
                   ["select n from t"; ".it"; ".it"] freshSession)))
    = [fetchedText 20; fetchedText 20; "No active statement" ++ LF] /\
  activeStatement
    (snd (loop (sampleConnection 25) ["select n from t"; ".it"] freshSession))
    <> None.
Proof.
  repeat split; try (vm_compute; reflexivity);
    intros H; vm_compute in H; discriminate H.
Qed.

(** C2.  A driver error in the page of [.it], and one in [.describe], end
    the process with exit code 1: the fatal message is the last thing
    written and the line typed after it is never asked for.  The same error in
    a submitted statement is reported and the loop goes on. *)
Theorem driver_error_outside_try_is_fatal :
  let run := main (sampleCommandLine false) None (sampleOracle 0) in
  fst (run ["select n from broken"; ".it"; "select n from t"]) = Return 1 /\
  last (snd (run ["select n from broken"; ".it"; "select n from t"]))
    ContextMake = Cerr (fatalText ORA_03113) /\
  promptsShown (snd (run ["select n from broken"; ".it"; "select n from t"]))
    = ["SQL++ > "; "SQL++ > "] /\
  fst (run [".describe t"; "select n from t"]) = Return 1 /\
  last (snd (run [".describe t"; "select n from t"])) ContextMake
    = Cerr (fatalText ORA_00942) /\
  promptsShown (snd (run [".describe t"; "select n from t"])) = ["SQL++ > "] /\
  fst (run ["select n from x"; "select n from t"]) = Return 0 /\
  promptsShown (snd (run ["select n from x"; "select n from t"]))
    = ["SQL++ > "; "SQL++ > "; "SQL++ > "].
Proof. repeat split; vm_compute; reflexivity. Qed.

(** C3.  With 25 rows and the page size 20 the first page shows the rows 1
    to 19 under the text [Fetched 20 rows] and the page of [.it] shows the
    rows 21 to 25: the row 20 is fetched and never shown.  With 45 rows the
    pages show the rows 1 to 19 and 21 to 39, and the rows from 40 on are
    never shown. *)
Theorem page_shows_19_rows_and_drops_one :
  let shown count input :=
    calls (snd (loop (sampleConnection count) input freshSession)) in
  tablesPrinted (shown 25%nat ["select n from t"; ".it"]) =
    [ ["N"] :: map formatRow (numbers 1 19);
      ["N"] :: map formatRow (numbers 21 5) ] /\
  coutTexts (shown 25%nat ["select n from t"; ".it"]) =
    [fetchedText 20; fetchedText 5] /\
  tablesPrinted (shown 45%nat ["select n from t"; ".it"; ".it"; ".it"]) =
    [ ["N"] :: map formatRow (numbers 1 19);
      ["N"] :: map formatRow (numbers 21 19) ] /\
  fst (fst (fetchAndPrintResults
              (executedStatement "select n from t" ["N"]
                 (map FetchRow (numbers 1 20))) 20)) = Ok false /\
  pending (snd (fst (fetchAndPrintResults
                       (executedStatement "select n from t" ["N"]
                          (map FetchRow (numbers 1 20))) 20))) = [].
Proof. repeat split; vm_compute; reflexivity. Qed.

(** The empty line typed at the first prompt: the process has no defined
    exit. *)
Example main_empty_line :
  fst (main (sampleCommandLine false) None (sampleOracle 0) [EmptyString]) =
    UndefinedBehaviour.
Proof. reflexivity. Qed.

(** C7.  A continued line followed by the empty line: the fragment is in the
    line builder and the call of [back] on the empty line is undefined, where
    the claim has the full line [select n ] produced. *)
Theorem continuation_before_blank_undefined :
  let r := loop (sampleConnection 0) ["select n \"; EmptyString] freshSession in
  fst r = Undefined /\
  lineBuilder (snd r) = "select n " /\
  inMultLine (snd r) = true /\
  driverCalls (calls (snd r)) = [].
Proof. repeat split. Qed.

(** ** The claims that hold as amended: inputs that tell them apart *)



(** C8 as stated fails: a [.describe] line whose query the database does
    not execute is not added to the history. *)
Lemma describe_not_recorded :
  ~ (forall conn fullLine s,
       String.prefix kDescribeKeyword fullLine = true ->
       In fullLine (historyAdded (calls (snd (dispatch conn fullLine s))))).
Proof.
  intros H.
  specialize (H (sampleConnection 0) ".describe t" freshSession eq_refl).
  vm_compute in H. exact H.
Qed.

Lemma history_recorded_witness :
  let r := dispatch (sampleConnection 3) "select n from t" freshSession in
  let d := dispatch catalogConnection ".describe T" freshSession in
  (r = (fst r, snd r) /\
   historyAdded (calls (snd r)) = ["select n from t"]) /\
  (d = (fst d, snd d) /\
   String.prefix kDescribeKeyword ".describe T" = true /\
   fst d = Continue /\
   historyAdded (calls (snd d)) = [".describe T"]).
Proof.
  intros r d.
  assert (E : r = (fst r, snd r)) by reflexivity.
  assert (D : d = (fst d, snd d)) by reflexivity.
  split; (split; [ assumption | ]).
  - refine (proj2 (proj2 (proj2 (history_recorded (sampleConnection 3)
              "select n from t" freshSession (fst r) (snd r) E)) _ _ _ _));
      [ discriminate | discriminate | discriminate | reflexivity ].
  - split; [ reflexivity | ].
    exact (proj1 (proj2 (history_recorded catalogConnection ".describe T"
                           freshSession (fst d) (snd d) D)) eq_refl).
Defined.


Lemma help_goes_on_witness :
  helpFlag (sampleCommandLine true) = true /\
  main (sampleCommandLine true) None (sampleOracle 3) [".exit"] =
    (fst (main (withoutHelp (sampleCommandLine true)) None (sampleOracle 3)
            [".exit"]),
     Cout (usageText "sqlsqrt") ::
     snd (main (withoutHelp (sampleCommandLine true)) None (sampleOracle 3)
            [".exit"])) /\
  exists rest,
    snd (main (sampleCommandLine true) (Some "/home/u") (sampleOracle 3)
           [".exit"]) =
      (Cout (usageText "sqlsqrt") ::
       [LinenoiseHistoryLoad "/home/u/.sqlplusplus_history"] ++
       [ContextMake; LinenoiseHistorySetMaxLen 10000;
        ConnectionMake
          {| connString := "db"; username := "scott"; password := "tiger" |};
        Linenoise "SQL++ > "] ++ rest)%list.
Proof.
  split; [ reflexivity | split ].
  - exact (proj1 (help_goes_on (sampleCommandLine true) None (sampleOracle 3)
                    [".exit"] eq_refl)).
  - exact (proj1 (proj2 (proj2
             (help_goes_on (sampleCommandLine true) (Some "/home/u")
                (sampleOracle 3) [".exit"] eq_refl)))
             (sampleConnection 3) eq_refl eq_refl eq_refl).
Defined.

(** ** Inputs at which the further properties apply *)

Lemma fetched_count_and_rows_shown_witness :
  let stmt :=
    executedStatement "select n from t" ["N"] (map FetchRow (numbers 1 3)) in
  let r := fetchAndPrintResults stmt 2 in
  r = (Ok false, snd (fst r), snd r) /\
  coutTexts (snd r) = [fetchedText (rowsFetched (snd r))].
Proof.
  intros stmt r.
  assert (E : r = (Ok false, snd (fst r), snd r)) by reflexivity.
  split; [ exact E | ].
  exact (proj1 (fetched_count_and_rows_shown stmt 2 false (snd (fst r))
                  (snd r) E eq_refl)).
Defined.

Lemma page_of_rows_witness :
  let stmt :=
    executedStatement "select n from t" ["N"] (map FetchRow (numbers 1 3)) in
  exists stmt' evs,
    fetchAndPrintResults stmt 2 = (Ok false, stmt', evs) /\
    tablesPrinted evs = [ ["N"] :: map formatRow (numbers 1 1) ] /\
    pending stmt' = map FetchRow (numbers 3 1).
Proof.
  intros stmt.
  refine (page_of_rows stmt [intCell 1] (numbers 2 2) 2 eq_refl _ _).
  - repeat constructor.
  - lia.
Defined.

Lemma describeTable_single_page_witness :
  fst (describeTable catalogConnection "T" []) = Ok tt /\
  tablesPrinted (snd (describeTable catalogConnection "T" [])) =
    [ ["Name"; "Null?"; "Type"] :: map formatRow catalogRows ].
Proof.
  refine (describeTable_single_page catalogConnection "T" []
            (executedStatement describeStmtStr [] [])
            {| sql := describeStmtStr; binds := [(1%nat, "T")];
               columns := ["Name"; "Null?"; "Type"]; currentRow := [];
               pending := map FetchRow catalogRows |}
            [textCell "N"; textCell "N"; textCell "NUMBER(22)"]
            [[textCell "NOTE"; textCell "Y"; textCell "VARCHAR2(80)"]]
            eq_refl eq_refl eq_refl _ _).
  - repeat constructor.
  - reflexivity.
Defined.

Lemma italic_requests_one_row_below_witness :
  let stmt :=
    executedStatement "select note from t" ["NOTE"] [FetchRow [nullCell]] in
  exists t,
    printedTables (snd (fetchAndPrintResults stmt 20)) = [t] /\
    rows t = [ ["NOTE"]; formatRow [nullCell] ] /\
    rowStyles t = [(0, bold)] /\
    cellStyles t = [(2, 0, italic)] /\
    forall idx col f,
      In (idx, col, f) (cellStyles t) ->
      2 <= idx <= Z.of_nat (List.length (rows t)).
Proof.
  intros stmt.
  refine (italic_requests_one_row_below stmt [nullCell] [] 20 eq_refl _).
  repeat constructor.
Defined.

Lemma continuation_fragments_witness :
  exists s1,
    lineBuilder s1 = EmptyString /\
    inMultLine s1 = false /\
    activeStatement s1 = None /\
    loop (sampleConnection 3) ["select n \"; "from \"; "t"; ".it"]
      freshSession =
      match dispatch (sampleConnection 3) "select n from t" s1 with
      | (Continue, s2) => loop (sampleConnection 3) [".it"] s2
      | stop => stop
      end.
Proof.
  refine (continuation_fragments (sampleConnection 3) ["select n "; "from "]
            "t" "t"%char [".it"] freshSession eq_refl eq_refl _).
  discriminate.
Defined.

Lemma turn_raise_only_meta_witness :
  (EmptyString ++ ".describe t")%string = ".it" \/
  String.prefix kDescribeKeyword (EmptyString ++ ".describe t") = true.
Proof.
  exact (turn_raise_only_meta (sampleConnection 0) ".describe t" freshSession
           ORA_00942 eq_refl).
Defined.

Lemma exit_1_only_fatal_witness :
  fst (main (sampleCommandLine false) None (sampleOracle 0)
         [".describe t"]) = Return 1 /\
  ((exists e, contextMake (sampleOracle 0) = Throw e) \/
   (exists pw e,
      contextMake (sampleOracle 0) = Ok tt /\
      Some "tiger" = Some pw /\
      connectionMake (sampleOracle 0)
        {| connString := "db"; username := "scott"; password := pw |} =
        Throw e) \/
   (exists pw conn e,
      contextMake (sampleOracle 0) = Ok tt /\
      Some "tiger" = Some pw /\
      connectionMake (sampleOracle 0)
        {| connString := "db"; username := "scott"; password := pw |} =
        Ok conn /\
      fst (loop conn [".describe t"]
             {| activeStatement := None; lineBuilder := EmptyString;
                inMultLine := false;
                calls :=
                  [ContextMake; LinenoiseHistorySetMaxLen 10000;
                   ConnectionMake
                     {| connString := "db"; username := "scott";
                        password := pw |}] |}) = Raise e)).
Proof.
  split; [ reflexivity | ].
  exact (proj1 (exit_1_only_fatal (sampleCommandLine false) None
                  (sampleOracle 0) [".describe t"]) eq_refl).
Defined.

Lemma line_builder_empty_outside_continuation_witness :
  lineBuilder
    (snd (loop (sampleConnection 3) ["select n \"; "from t"; ".it"]
            freshSession)) = EmptyString.
Proof.
  refine (line_builder_empty_outside_continuation (sampleConnection 3)
            ["select n \"; "from t"; ".it"] freshSession _ eq_refl).
  intros _. reflexivity.
Defined.

Lemma statement_prepared_as_typed_witness :
  fst (dispatch (sampleConnection 3) ".exit " freshSession) = Continue /\
  preparedTexts
    (calls (snd (dispatch (sampleConnection 3) ".exit " freshSession))) =
    [".exit "].
Proof.
  refine (statement_prepared_as_typed (sampleConnection 3) ".exit "
            freshSession _ _ _ eq_refl); discriminate.
Defined.

Lemma statement_after_submission_witness :
  activeStatement
    (snd (dispatch catalogConnection "select n from t"
            {| activeStatement :=
                 Some (executedStatement "select note from t" ["NOTE"] []);
               lineBuilder := EmptyString; inMultLine := false;
               calls := [] |})) =
    Some (executedStatement "select note from t" ["NOTE"] []).
Proof.
  refine (statement_after_submission catalogConnection "select n from t"
            {| activeStatement :=
                 Some (executedStatement "select note from t" ["NOTE"] []);
               lineBuilder := EmptyString; inMultLine := false;
               calls := [] |} _ _ _ eq_refl); discriminate.
Defined.

Lemma formatColumnValue_never_null_text_witness :
  formatColumnValue {| isNull := true; value := asUint64 42 |} <> "<null>".
Proof.
  refine (formatColumnValue_never_null_text
            {| isNull := true; value := asUint64 42 |} _ _); discriminate.
Defined.

End Runs.
